(** * Clutter (Android port): the input-event core

  A shallow embedding of [clutter/clutter-event.c] and of the command and
  input handlers of [clutter/android/clutter-android-application.c].

  Conventions.
  - C integers are [Z]; a value stored in an unsigned 32-bit object is
    reduced with [to_guint32], and unsigned arithmetic is written with its
    wrap-around.
  - A pointer is [option addr]; [NULL] is [None].
  - Calls into collaborators that are not part of these files (GLib main
    loops, the stage, Cogl, the NDK) are recorded in a trace of [call]s.
  - [gfloat] values are the rationals they denote. *)

From Stdlib Require Import ZArith QArith Lia List String Bool.
From stdpp Require Import base option list gmap.

Local Open Scope Z_scope.

(** ** GLib integer types *)

Module glib.

Definition guint32_modulus : Z := 2 ^ 32.

(** Conversion to [guint32] / [guint] (C11 6.3.1.3p2). *)
Definition to_guint32 (z : Z) : Z := z mod guint32_modulus.

Definition is_guint32 (z : Z) : Prop := 0 <= z < guint32_modulus.

(** [ABS(a)] of gmacros.h: [(((a) < 0) ? -(a) : (a))]. *)
Definition ABS (a : Z) : Z := if a <? 0 then - a else a.

(** Conversion of a [float] to an integer type discards the fractional
    part (C11 6.3.1.4p1). *)
Definition gint_of_gfloat (q : Q) : Z := Z.quot (Qnum q) (Zpos (Qden q)).

(** Conversion to [gint]: the value of the same 32 bits read as a signed
    number.  It is the identity on the range of [gint]; a [gint] sum or
    difference outside that range is reduced like this by the compiled
    code. *)
Definition to_gint (z : Z) : Z := (z + 2 ^ 31) mod guint32_modulus - 2 ^ 31.

Definition is_gint (z : Z) : Prop := - 2 ^ 31 <= z < 2 ^ 31.

(** Conversion of an [int32_t] to [gfloat]: the nearest number with a
    significand of 24 bits, the even one of two equally near (C11 6.3.1.4p2
    with IEEE 754 rounding).  The result is again a whole number. *)
Definition gfloat_of_gint (i : Z) : Z :=
  let a := Z.abs i in
  if a <? 2 ^ 24 then i
  else
    let e := Z.log2 a - 23 in
    let q := a / 2 ^ e in
    let r := a mod 2 ^ e in
    let half := 2 ^ (e - 1) in
    let q := if (half <? r) || ((r =? half) && Z.odd q) then q + 1 else q in
    Z.sgn i * (q * 2 ^ e).

End glib.

Definition addr := positive.
Definition pointer := option addr.
Definition NULL : pointer := None.

(** ** clutter-event.c *)

Module clutter_event.
Import glib.

(** [ClutterEventType]: the kinds that these files name. *)
Inductive ClutterEventType :=
| CLUTTER_NOTHING
| CLUTTER_KEY_PRESS
| CLUTTER_KEY_RELEASE
| CLUTTER_MOTION
| CLUTTER_BUTTON_PRESS
| CLUTTER_2BUTTON_PRESS
| CLUTTER_3BUTTON_PRESS
| CLUTTER_BUTTON_RELEASE
| CLUTTER_SCROLL.

Definition CLUTTER_CURRENT_TIME : Z := 0.
Definition CLUTTER_EVENT_NONE : Z := 0.
Definition CLUTTER_BUTTON1_MASK : Z := Z.shiftl 1 8.

(** The members of a [ClutterEvent].  The declaration (clutter-event.h) is
    not among the sources; each member the code names is kept as a member
    of its own, with the fields the code reads or writes: times and
    modifier states are [guint32], coordinates are [gint]
    ([clutter_event_get_coords] reads them into [gint]). *)
Record ClutterAnyEvent := {
  any_type : ClutterEventType;
  any_stage : pointer }.

Record ClutterKeyEvent := {
  key_type : ClutterEventType;
  key_time : Z;
  key_modifier_state : Z;
  key_keyval : Z;
  key_hardware_keycode : Z;
  key_unicode_value : Z }.

Record ClutterButtonEvent := {
  button_type : ClutterEventType;
  button_time : Z;
  button_x : Z;
  button_y : Z;
  button_modifier_state : Z;
  button_button : Z;
  button_click_count : Z;
  button_device : pointer }.

Record ClutterMotionEvent := {
  motion_type : ClutterEventType;
  motion_time : Z;
  motion_x : Z;
  motion_y : Z;
  motion_modifier_state : Z;
  motion_device : pointer }.

Record ClutterScrollEvent := {
  scroll_type : ClutterEventType;
  scroll_time : Z;
  scroll_x : Z;
  scroll_y : Z;
  scroll_modifier_state : Z }.

Record ClutterEvent := {
  type : ClutterEventType;
  flags : Z;
  any : ClutterAnyEvent;
  key : ClutterKeyEvent;
  button : ClutterButtonEvent;
  motion : ClutterMotionEvent;
  scroll : ClutterScrollEvent }.

Definition set_type (t : ClutterEventType) (e : ClutterEvent) : ClutterEvent :=
  {| type := t; flags := flags e; any := any e; key := key e;
     button := button e; motion := motion e; scroll := scroll e |}.

Definition set_flags (f : Z) (e : ClutterEvent) : ClutterEvent :=
  {| type := type e; flags := f; any := any e; key := key e;
     button := button e; motion := motion e; scroll := scroll e |}.

Definition set_any (a : ClutterAnyEvent) (e : ClutterEvent) : ClutterEvent :=
  {| type := type e; flags := flags e; any := a; key := key e;
     button := button e; motion := motion e; scroll := scroll e |}.

Definition set_key (k : ClutterKeyEvent) (e : ClutterEvent) : ClutterEvent :=
  {| type := type e; flags := flags e; any := any e; key := k;
     button := button e; motion := motion e; scroll := scroll e |}.

Definition set_button (b : ClutterButtonEvent) (e : ClutterEvent) : ClutterEvent :=
  {| type := type e; flags := flags e; any := any e; key := key e;
     button := b; motion := motion e; scroll := scroll e |}.

Definition set_motion (m : ClutterMotionEvent) (e : ClutterEvent) : ClutterEvent :=
  {| type := type e; flags := flags e; any := any e; key := key e;
     button := button e; motion := m; scroll := scroll e |}.

(** [g_slice_new0 (ClutterEvent)]: every byte is zero. *)
Definition zeroed_event : ClutterEvent :=
  {| type := CLUTTER_NOTHING; flags := 0;
     any := {| any_type := CLUTTER_NOTHING; any_stage := NULL |};
     key := {| key_type := CLUTTER_NOTHING; key_time := 0;
               key_modifier_state := 0; key_keyval := 0;
               key_hardware_keycode := 0; key_unicode_value := 0 |};
     button := {| button_type := CLUTTER_NOTHING; button_time := 0;
                  button_x := 0; button_y := 0; button_modifier_state := 0;
                  button_button := 0; button_click_count := 0;
                  button_device := NULL |};
     motion := {| motion_type := CLUTTER_NOTHING; motion_time := 0;
                  motion_x := 0; motion_y := 0; motion_modifier_state := 0;
                  motion_device := NULL |};
     scroll := {| scroll_type := CLUTTER_NOTHING; scroll_time := 0;
                  scroll_x := 0; scroll_y := 0;
                  scroll_modifier_state := 0 |} |}.

(** *** Accessors.  The argument is the [ClutterEvent *] with its pointee. *)

Definition clutter_event_type (event : option ClutterEvent) : ClutterEventType :=
  match event with
  | None => CLUTTER_NOTHING
  | Some event => type event
  end.

Definition clutter_event_get_time (event : option ClutterEvent) : Z :=
  match event with
  | None => CLUTTER_CURRENT_TIME
  | Some event =>
      match type event with
      | CLUTTER_KEY_PRESS | CLUTTER_KEY_RELEASE => key_time (key event)
      | CLUTTER_BUTTON_PRESS | CLUTTER_2BUTTON_PRESS | CLUTTER_BUTTON_RELEASE =>
          button_time (button event)
      | CLUTTER_MOTION => motion_time (motion event)
      | CLUTTER_SCROLL => scroll_time (scroll event)
      | _ => CLUTTER_CURRENT_TIME
      end
  end.

Definition clutter_event_get_state (event : option ClutterEvent) : Z :=
  match event with
  | None => 0
  | Some event =>
      match type event with
      | CLUTTER_KEY_PRESS | CLUTTER_KEY_RELEASE => key_modifier_state (key event)
      | CLUTTER_BUTTON_PRESS | CLUTTER_2BUTTON_PRESS | CLUTTER_BUTTON_RELEASE =>
          button_modifier_state (button event)
      | CLUTTER_MOTION => motion_modifier_state (motion event)
      | CLUTTER_SCROLL => scroll_modifier_state (scroll event)
      | _ => 0
      end
  end.

(** [x] and [y] are the return locations: [None] for a [NULL] pointer,
    otherwise the [gint] stored there.  The result is their contents
    after the call. *)
Definition clutter_event_get_coords (event : option ClutterEvent)
    (x y : option Z) : option Z * option Z :=
  match event with
  | None => (x, y)
  | Some event =>
      let '(event_x, event_y) :=
        match type event with
        | CLUTTER_KEY_PRESS | CLUTTER_KEY_RELEASE => (0, 0)
        | CLUTTER_BUTTON_PRESS | CLUTTER_2BUTTON_PRESS | CLUTTER_BUTTON_RELEASE =>
            (button_x (button event), button_y (button event))
        | CLUTTER_MOTION => (motion_x (motion event), motion_y (motion event))
        | CLUTTER_SCROLL => (scroll_x (scroll event), scroll_y (scroll event))
        | _ => (0, 0)
        end in
      (match x with Some _ => Some event_x | None => None end,
       match y with Some _ => Some event_y | None => None end)
  end.

Definition clutter_button_event_button (buttev : option ClutterButtonEvent) : Z :=
  match buttev with
  | None => 0
  | Some buttev => button_button buttev
  end.

Definition clutter_key_event_symbol (keyev : option ClutterKeyEvent) : Z :=
  match keyev with
  | None => 0
  | Some keyev => key_keyval keyev
  end.

Definition clutter_key_event_code (keyev : option ClutterKeyEvent) : Z :=
  match keyev with
  | None => 0
  | Some keyev => key_hardware_keycode keyev
  end.

(** *** Key symbols *)

(** An entry of [clutter_keysym_to_unicode_tab]: [keysym] and [ucs], both
    [unsigned short].  The table itself (clutter-keysyms-table.h) is not
    among the sources and is an argument of the lookup. *)
Record keysym_entry := { keysym : Z; ucs : Z }.

(** The [while (max >= min)] loop.  Each round that does not return shrinks
    [max - min], so [fuel] rounds bound it; [None] is an exhausted bound or
    an index outside the table, which the theorems rule out.  [int]
    division is [Z.quot]. *)
Fixpoint keysym_search (fuel : nat) (tab : list keysym_entry)
    (keyval min max : Z) : option Z :=
  match fuel with
  | O => None
  | S fuel =>
      if max >=? min then
        let mid := Z.quot (min + max) 2 in
        if mid <? 0 then None else
        match tab !! Z.to_nat mid with
        | None => None
        | Some entry =>
            if keysym entry <? keyval then
              keysym_search fuel tab keyval (mid + 1) max
            else if keysym entry >? keyval then
              keysym_search fuel tab keyval min (mid - 1)
            else Some (ucs entry)
        end
      else Some 0
  end.

Definition clutter_keysym_to_unicode (tab : list keysym_entry)
    (keyval : Z) : option Z :=
  let min := 0 in
  let max := Z.of_nat (length tab) - 1 in
  if ((keyval >=? 0x0020) && (keyval <=? 0x007e))
     || ((keyval >=? 0x00a0) && (keyval <=? 0x00ff))
  then Some keyval
  else if Z.land keyval 0xff000000 =? 0x01000000
  then Some (Z.land keyval 0x00ffffff)
  else keysym_search (S (length tab)) tab keyval min max.

Definition clutter_key_event_unicode (tab : list keysym_entry)
    (keyev : option ClutterKeyEvent) : option Z :=
  match keyev with
  | None => Some 0
  | Some keyev => clutter_keysym_to_unicode tab (key_keyval keyev)
  end.

(** *** Allocation of events *)

(** The events that are allocated, by address, and the static
    [event_hash] ([None] until the first event is made). *)
Record EventMemory := {
  events : gmap addr ClutterEvent;
  event_hash : option (gset addr) }.

Section allocation.

(** [g_slice_new0]: the address it hands out for a given set of live
    events. *)
Variable g_slice_alloc : gmap addr ClutterEvent -> addr.

Definition clutter_event_new (type_ : ClutterEventType) (mem : EventMemory)
    : EventMemory * addr :=
  let hash := match event_hash mem with
              | None => ∅
              | Some hash => hash
              end in
  let new_event := g_slice_alloc (events mem) in
  let ev := set_any {| any_type := type_; any_stage := any_stage (any zeroed_event) |}
              zeroed_event in
  let ev := set_type type_ ev in
  let ev := set_flags CLUTTER_EVENT_NONE ev in
  ({| events := <[new_event := ev]> (events mem);
      event_hash := Some ({[new_event]} ∪ hash) |}, new_event).

(** [None] stands for the undefined behaviour of reading through a pointer
    to no live event. *)
Definition clutter_event_copy (event : pointer) (mem : EventMemory)
    : option (EventMemory * pointer) :=
  match event with
  | None => Some (mem, NULL)
  | Some event =>
      let '(mem, new_event) := clutter_event_new CLUTTER_NOTHING mem in
      match events mem !! event with
      | None => None
      | Some ev =>
          Some ({| events := <[new_event := ev]> (events mem);
                   event_hash := event_hash mem |}, Some new_event)
      end
  end.

End allocation.

Definition clutter_event_free (event : pointer) (mem : EventMemory) : EventMemory :=
  match event with
  | Some event =>
      {| events := delete event (events mem);
         event_hash := (fun hash => hash ∖ {[event]}) <$> event_hash mem |}
  | None => mem
  end.

(** *** The backend: event queue and click detection *)

(** The fields of [ClutterBackend] that the file uses (the declaration is
    not among the sources): the [GQueue] with its head first, [NULL] until
    the first push; the [guint] settings; and the two-element arrays, as
    pairs.  [button_x_] and [button_y_] are the arrays [button_x] and
    [button_y], whose plain names are taken by the button event. *)
Record ClutterBackend := {
  events_queue : option (list pointer);
  double_click_time : Z;
  double_click_distance : Z;
  button_click_time : Z * Z;
  button_number : Z * Z;
  button_x_ : Z * Z;
  button_y_ : Z * Z }.

(** [a[i]] and [a[i] = v] for [i] 0 or 1. *)
Definition idx (a : Z * Z) (i : nat) : Z :=
  match i with O => fst a | _ => snd a end.

Definition upd (a : Z * Z) (i : nat) (v : Z) : Z * Z :=
  match i with O => (v, snd a) | _ => (fst a, v) end.

Definition set_events_queue (q : option (list pointer)) (b : ClutterBackend) :=
  {| events_queue := q;
     double_click_time := double_click_time b;
     double_click_distance := double_click_distance b;
     button_click_time := button_click_time b;
     button_number := button_number b;
     button_x_ := button_x_ b; button_y_ := button_y_ b |}.

Definition set_button_click_time (i : nat) (v : Z) (b : ClutterBackend) :=
  {| events_queue := events_queue b;
     double_click_time := double_click_time b;
     double_click_distance := double_click_distance b;
     button_click_time := upd (button_click_time b) i v;
     button_number := button_number b;
     button_x_ := button_x_ b; button_y_ := button_y_ b |}.

Definition set_button_number (i : nat) (v : Z) (b : ClutterBackend) :=
  {| events_queue := events_queue b;
     double_click_time := double_click_time b;
     double_click_distance := double_click_distance b;
     button_click_time := button_click_time b;
     button_number := upd (button_number b) i v;
     button_x_ := button_x_ b; button_y_ := button_y_ b |}.

Definition set_button_x (i : nat) (v : Z) (b : ClutterBackend) :=
  {| events_queue := events_queue b;
     double_click_time := double_click_time b;
     double_click_distance := double_click_distance b;
     button_click_time := button_click_time b;
     button_number := button_number b;
     button_x_ := upd (button_x_ b) i v; button_y_ := button_y_ b |}.

Definition set_button_y (i : nat) (v : Z) (b : ClutterBackend) :=
  {| events_queue := events_queue b;
     double_click_time := double_click_time b;
     double_click_distance := double_click_distance b;
     button_click_time := button_click_time b;
     button_number := button_number b;
     button_x_ := button_x_ b; button_y_ := upd (button_y_ b) i v |}.

(** [g_queue_push_head] on a queue made on first use. *)
Definition _clutter_event_queue_push (backend : ClutterBackend)
    (event : pointer) : ClutterBackend :=
  let queue := match events_queue backend with
               | None => []
               | Some queue => queue
               end in
  set_events_queue (Some (event :: queue)) backend.

(** [g_queue_pop_tail]: the last element is taken off and returned, [NULL]
    from an empty queue. *)
Definition g_queue_pop_tail (queue : list pointer) : list pointer * pointer :=
  match last queue with
  | None => ([], NULL)
  | Some event => (removelast queue, event)
  end.

Definition _clutter_event_queue_pop (backend : ClutterBackend)
    : ClutterBackend * pointer :=
  match events_queue backend with
  | None => (backend, NULL)
  | Some queue =>
      let '(queue, event) := g_queue_pop_tail queue in
      (set_events_queue (Some queue) backend, event)
  end.

Definition _clutter_event_queue_peek (backend : ClutterBackend) : pointer :=
  match events_queue backend with
  | None => NULL
  | Some queue => default NULL (last queue)
  end.

Definition _clutter_event_queue_check_pending (backend : ClutterBackend) : bool :=
  match events_queue backend with
  | None => false
  | Some queue => negb (bool_decide (queue = []))
  end.

(** [clutter_backend_put_event] is not among the sources: the functions
    below return, next to the backend, the events they hand to it. *)
Definition _clutter_synthesize_click (event : ClutterEvent) (n_clicks : Z)
    : list ClutterEvent :=
  let temp_event := event in
  let temp_event :=
    set_type (if n_clicks =? 2 then CLUTTER_2BUTTON_PRESS
              else CLUTTER_3BUTTON_PRESS) temp_event in
  [temp_event].

(** One of the two tests of [_clutter_event_button_generate], against slot
    [i] with the window [window]: the sum and the comparisons are unsigned
    32-bit ([guint32] times, [guint] settings), the button is compared with
    the slot's number after the usual conversion to unsigned (the slot may
    hold -1), the differences of coordinates and their [ABS] are [gint],
    reduced to 32 bits, and are compared with the [guint] distance as
    unsigned numbers. *)
Definition click_test (backend : ClutterBackend) (event : ClutterEvent)
    (i : nat) (window : Z) : bool :=
  (button_time (button event)
     <? to_guint32 (idx (button_click_time backend) i + window))
  && (to_guint32 (button_button (button event))
        =? to_guint32 (idx (button_number backend) i))
  && (to_guint32 (ABS (to_gint (button_x (button event) - idx (button_x_ backend) i)))
        <=? double_click_distance backend)
  && (to_guint32 (ABS (to_gint (button_y (button event) - idx (button_y_ backend) i)))
        <=? double_click_distance backend).

Definition _clutter_event_button_generate (backend : ClutterBackend)
    (event : ClutterEvent) : ClutterBackend * list ClutterEvent :=
  if click_test backend event 1 (2 * double_click_time backend) then
    let put := _clutter_synthesize_click event 3 in
    let backend := set_button_click_time 1 0 backend in
    let backend := set_button_click_time 0 0 backend in
    let backend := set_button_number 1 (-1) backend in
    let backend := set_button_number 0 (-1) backend in
    let backend := set_button_x 1 0 backend in
    let backend := set_button_x 0 (idx (button_x_ backend) 1) backend in
    let backend := set_button_y 1 0 backend in
    let backend := set_button_y 0 (idx (button_y_ backend) 1) backend in
    (backend, put)
  else if click_test backend event 0 (double_click_time backend) then
    let put := _clutter_synthesize_click event 2 in
    let backend := set_button_click_time 1 (idx (button_click_time backend) 0) backend in
    let backend := set_button_click_time 0 (button_time (button event)) backend in
    let backend := set_button_number 1 (idx (button_number backend) 0) backend in
    let backend := set_button_number 0 (button_button (button event)) backend in
    let backend := set_button_x 1 (idx (button_x_ backend) 0) backend in
    let backend := set_button_x 0 (button_x (button event)) backend in
    let backend := set_button_y 1 (idx (button_y_ backend) 0) backend in
    let backend := set_button_y 0 (button_y (button event)) backend in
    (backend, put)
  else
    let backend := set_button_click_time 1 0 backend in
    let backend := set_button_click_time 0 (button_time (button event)) backend in
    let backend := set_button_number 1 (-1) backend in
    let backend := set_button_number 0 (button_button (button event)) backend in
    let backend := set_button_x 1 0 backend in
    let backend := set_button_x 0 (button_x (button event)) backend in
    let backend := set_button_y 1 0 backend in
    let backend := set_button_y 0 (button_y (button event)) backend in
    (backend, []).

(** *** Putting an event, and the events handler *)

Section putting.

Variable g_slice_alloc : gmap addr ClutterEvent -> addr.

(** [backend] is the backend of the default context.  [None] is the
    undefined behaviour of [clutter_event_copy]. *)
Definition clutter_event_put (event : pointer) (backend : ClutterBackend)
    (mem : EventMemory) : option (ClutterBackend * EventMemory) :=
  match clutter_event_copy g_slice_alloc event mem with
  | None => None
  | Some (mem, copy) => Some (_clutter_event_queue_push backend copy, mem)
  end.

End putting.

Definition clutter_event_peek (backend : ClutterBackend) : pointer :=
  _clutter_event_queue_peek backend.

(** The three globals [_clutter_event_func], [_clutter_event_data] and
    [_clutter_event_destroy]; a function pointer is the address of the
    function, [NULL] for none. *)
Record EventsHandler := {
  _clutter_event_func : pointer;
  _clutter_event_data : pointer;
  _clutter_event_destroy : pointer }.

Definition no_events_handler : EventsHandler :=
  {| _clutter_event_func := NULL; _clutter_event_data := NULL;
     _clutter_event_destroy := NULL |}.

(** A call of a destroy notifier [notifier] on the data [notified]. *)
Record destroy_call := {
  notifier : addr;
  notified : pointer }.

(** The result is the globals after the call and the calls made of destroy
    notifiers. *)
Definition _clutter_set_events_handler (func data destroy : pointer)
    (globals : EventsHandler) : EventsHandler * list destroy_call :=
  let called :=
    match _clutter_event_destroy globals with
    | Some destroy_ => [ {| notifier := destroy_;
                            notified := _clutter_event_data globals |} ]
    | None => []
    end in
  ({| _clutter_event_func := func; _clutter_event_data := data;
      _clutter_event_destroy := destroy |}, called).

End clutter_event.

(** ** android/clutter-android-application.c *)

Module clutter_android_application.
Import glib clutter_event.

(** *** The NDK's input records and constants (android/input.h) *)

Definition AINPUT_EVENT_TYPE_KEY : Z := 1.
Definition AINPUT_EVENT_TYPE_MOTION : Z := 2.

Definition AMOTION_EVENT_ACTION_MASK : Z := 0xff.
Definition AMOTION_EVENT_ACTION_DOWN : Z := 0.
Definition AMOTION_EVENT_ACTION_UP : Z := 1.
Definition AMOTION_EVENT_ACTION_MOVE : Z := 2.

Definition AKEY_STATE_UP : Z := 0.
Definition AKEY_STATE_DOWN : Z := 1.
Definition AKEY_STATE_VIRTUAL : Z := 2.

Definition AWINDOW_FLAG_FULLSCREEN : Z := 0x400.

(** What the NDK accessors report of an [AInputEvent]: the type, the action
    ([int32_t]; for a key record, the state of the key), the event time
    ([int64_t]), X and Y of pointer 0 ([float]), the meta state (the
    modifier keys held) and the key code ([int32_t]). *)
Record AInputEvent := {
  a_type : Z;
  a_action : Z;
  a_event_time : Z;
  a_x : Q;
  a_y : Q;
  a_meta_state : Z;
  a_key_code : Z }.

Definition AInputEvent_getType (a_event : AInputEvent) : Z := a_type a_event.
Definition AMotionEvent_getAction (a_event : AInputEvent) : Z := a_action a_event.
Definition AMotionEvent_getEventTime (a_event : AInputEvent) : Z := a_event_time a_event.
Definition AMotionEvent_getX (a_event : AInputEvent) (pointer_index : nat) : Q := a_x a_event.
Definition AMotionEvent_getY (a_event : AInputEvent) (pointer_index : nat) : Q := a_y a_event.
Definition AMotionEvent_getMetaState (a_event : AInputEvent) : Z := a_meta_state a_event.
Definition AKeyEvent_getKeyCode (a_event : AInputEvent) : Z := a_key_code a_event.

(** *** Field stores of the translators *)

Definition press_or_release (t : ClutterEventType) (pointer_device : pointer)
    (a_event : AInputEvent) (event : ClutterEvent) : ClutterEvent :=
  let event := set_type t event in
  set_button
    {| button_type := t;
       button_button := 1;
       button_click_count := 1;
       button_device := pointer_device;
       button_time := to_guint32 (AMotionEvent_getEventTime a_event);
       button_x := gint_of_gfloat (AMotionEvent_getX a_event 0);
       button_y := gint_of_gfloat (AMotionEvent_getY a_event 0);
       button_modifier_state := button_modifier_state (button event) |}
    event.

(** [pointer_device] is the core pointer device of the device manager; the
    call that binds it to the event's stage leaves the event alone.  The
    result is the [gboolean] and the event as the call leaves it. *)
Definition translate_motion_event (pointer_device : pointer)
    (event : ClutterEvent) (a_event : AInputEvent) : bool * ClutterEvent :=
  let action := AMotionEvent_getAction a_event in
  let masked := Z.land action AMOTION_EVENT_ACTION_MASK in
  if masked =? AMOTION_EVENT_ACTION_DOWN then
    (true, press_or_release CLUTTER_BUTTON_PRESS pointer_device a_event event)
  else if masked =? AMOTION_EVENT_ACTION_UP then
    (true, press_or_release CLUTTER_BUTTON_RELEASE pointer_device a_event event)
  else if masked =? AMOTION_EVENT_ACTION_MOVE then
    let event := set_type CLUTTER_MOTION event in
    (true,
     set_motion
       {| motion_type := CLUTTER_MOTION;
          motion_device := pointer_device;
          motion_modifier_state := CLUTTER_BUTTON1_MASK;
          motion_time := to_guint32 (AMotionEvent_getEventTime a_event);
          motion_x := gint_of_gfloat (AMotionEvent_getX a_event 0);
          motion_y := gint_of_gfloat (AMotionEvent_getY a_event 0) |}
       event)
  else (false, event).

Definition set_key_unicode_value (v : Z) (k : ClutterKeyEvent) : ClutterKeyEvent :=
  {| key_type := key_type k; key_time := key_time k;
     key_modifier_state := key_modifier_state k; key_keyval := key_keyval k;
     key_hardware_keycode := key_hardware_keycode k; key_unicode_value := v |}.

Definition set_key_type (t : ClutterEventType) (k : ClutterKeyEvent) : ClutterKeyEvent :=
  {| key_type := t; key_time := key_time k;
     key_modifier_state := key_modifier_state k; key_keyval := key_keyval k;
     key_hardware_keycode := key_hardware_keycode k;
     key_unicode_value := key_unicode_value k |}.

Definition translate_key_event (event : ClutterEvent) (a_event : AInputEvent)
    : bool * ClutterEvent :=
  let state := AMotionEvent_getMetaState a_event in
  let event :=
    set_key (set_key_unicode_value (to_guint32 (AKeyEvent_getKeyCode a_event))
               (key event)) event in
  if state =? AKEY_STATE_UP then
    (true, set_type CLUTTER_KEY_RELEASE
             (set_key (set_key_type CLUTTER_KEY_RELEASE (key event)) event))
  else if (state =? AKEY_STATE_DOWN) || (state =? AKEY_STATE_VIRTUAL) then
    (true, set_type CLUTTER_KEY_PRESS
             (set_key (set_key_type CLUTTER_KEY_PRESS (key event)) event))
  else (false, event).

(** The event of [clutter_event_new (CLUTTER_NOTHING)] with its stage set to
    the default stage. *)
Definition new_input_event (default_stage : pointer) : ClutterEvent :=
  set_any {| any_type := CLUTTER_NOTHING; any_stage := default_stage |}
    (set_flags CLUTTER_EVENT_NONE (set_type CLUTTER_NOTHING zeroed_event)).

(** The result is [process] and, when it is set, the event given to
    [_clutter_event_push]: the translators' "none" is [None]. *)
Definition clutter_android_handle_input (default_stage pointer_device : pointer)
    (a_event : AInputEvent) : bool * option ClutterEvent :=
  let event := new_input_event default_stage in
  let '(process, event) :=
    if AInputEvent_getType a_event =? AINPUT_EVENT_TYPE_KEY then
      translate_key_event event a_event
    else if AInputEvent_getType a_event =? AINPUT_EVENT_TYPE_MOTION then
      translate_motion_event pointer_device event a_event
    else (false, event) in
  (process, if process then Some event else None).

(** *** Lifecycle commands (android_native_app_glue.h) *)

Inductive app_cmd :=
| APP_CMD_INPUT_CHANGED
| APP_CMD_INIT_WINDOW
| APP_CMD_TERM_WINDOW
| APP_CMD_WINDOW_RESIZED
| APP_CMD_WINDOW_REDRAW_NEEDED
| APP_CMD_CONTENT_RECT_CHANGED
| APP_CMD_GAINED_FOCUS
| APP_CMD_LOST_FOCUS
| APP_CMD_CONFIG_CHANGED
| APP_CMD_LOW_MEMORY
| APP_CMD_START
| APP_CMD_RESUME
| APP_CMD_SAVE_STATE
| APP_CMD_PAUSE
| APP_CMD_STOP
| APP_CMD_DESTROY.

(** [ANativeWindow_getWidth] and [ANativeWindow_getHeight] of a window. *)
Record ANativeWindow := {
  window_width : Z;
  window_height : Z }.

(** [app->window], [NULL] when there is none. *)
Record android_app := {
  window : option ANativeWindow }.

(** [wait_for_window] is the [GMainLoop *] of
    [clutter_android_application_run], [NULL] outside the wait. *)
Record ClutterAndroidApplication := {
  have_window : bool;
  wait_for_window : pointer }.

(** What the collaborators answer during one command: the value the
    [ready] emission leaves in [initialized], and the width and height of
    the default stage ([gfloat]). *)
Record Collaborators := {
  ready_initialized : bool;
  stage_width : Q;
  stage_height : Q }.

(** Calls made into the collaborators, in order.  [g_message] logging is
    left out. *)
Inductive call :=
| ANativeActivity_setWindowFlags (addFlags removeFlags : Z)
| g_signal_emit_READY
| g_main_loop_quit (loop : addr)
| clutter_main_quit
| clutter_actor_set_size (width height : Z)
| cogl_android_onscreen_update_size (width height : Z)
| clutter_actor_queue_relayout.

(** How the handler ends: it returns, or the process ends in [exit]. *)
Inductive outcome :=
| Returned
| Exited (status : Z).

Record cmd_result := {
  application_after : ClutterAndroidApplication;
  calls : list call;
  ending : outcome }.

(** [gfloat != int32_t]: the integer is converted to [gfloat] and the two
    [gfloat]s are compared. *)
Definition gfloat_ne_int (f : Q) (i : Z) : bool :=
  negb (Qeq_bool f (inject_Z (gfloat_of_gint i))).

Definition clutter_android_handle_cmd (world : Collaborators) (app : android_app)
    (application : ClutterAndroidApplication) (cmd : app_cmd) : cmd_result :=
  match cmd with
  | APP_CMD_INIT_WINDOW =>
      match window app with
      | Some _ =>
          let initialized := ready_initialized world in
          let application' :=
            if initialized
            then {| have_window := true;
                    wait_for_window := wait_for_window application |}
            else application in
          {| application_after := application';
             calls := [ANativeActivity_setWindowFlags 0 AWINDOW_FLAG_FULLSCREEN;
                       g_signal_emit_READY]
                      ++ match wait_for_window application' with
                         | Some loop => [g_main_loop_quit loop]
                         | None => []
                         end;
             ending := Returned |}
      | None =>
          {| application_after := application; calls := []; ending := Returned |}
      end
  | APP_CMD_TERM_WINDOW =>
      {| application_after := application;
         calls := match wait_for_window application with
                  | Some loop => [g_main_loop_quit loop]
                  | None => [clutter_main_quit]
                  end;
         ending := Exited 0 |}
  | APP_CMD_WINDOW_RESIZED =>
      match window app with
      | Some w =>
          let width := window_width w in
          let height := window_height w in
          {| application_after := application;
             calls := [clutter_actor_set_size width height];
             ending := Returned |}
      | None =>
          {| application_after := application; calls := []; ending := Returned |}
      end
  | APP_CMD_WINDOW_REDRAW_NEEDED =>
      match window app with
      | Some w =>
          let width := window_width w in
          let height := window_height w in
          {| application_after := application;
             calls :=
               if gfloat_ne_int (stage_width world) width
                  || gfloat_ne_int (stage_height world) height
               then [cogl_android_onscreen_update_size width height;
                     clutter_actor_queue_relayout]
               else [];
             ending := Returned |}
      | None =>
          {| application_after := application; calls := []; ending := Returned |}
      end
  | _ =>
      {| application_after := application; calls := []; ending := Returned |}
  end.

End clutter_android_application.

(** ** Reference definitions

    The vocabulary of the properties below: the queue as a first-in
    first-out sequence, the click state as two slots, and the click test
    written as a time difference. *)

Module reference.
Import glib clutter_event clutter_android_application.

(** *** Event queue *)

Inductive queue_op :=
| Push (event : pointer)
| Pop.

(** The events waiting in the backend's queue, oldest first. *)
Definition pending (backend : ClutterBackend) : list pointer :=
  rev (default [] (events_queue backend)).

(** Runs [ops] on the backend; the second component lists what the pops
    returned, in order. *)
Fixpoint run_queue (backend : ClutterBackend) (ops : list queue_op)
    : ClutterBackend * list pointer :=
  match ops with
  | [] => (backend, [])
  | Push event :: ops => run_queue (_clutter_event_queue_push backend event) ops
  | Pop :: ops =>
      let '(backend, event) := _clutter_event_queue_pop backend in
      let '(backend, popped) := run_queue backend ops in
      (backend, event :: popped)
  end.

(** A first-in first-out sequence, oldest first: a push goes to the end, a
    pop takes the first, and yields [NULL] when there is none. *)
Fixpoint fifo (waiting : list pointer) (ops : list queue_op)
    : list pointer * list pointer :=
  match ops with
  | [] => (waiting, [])
  | Push event :: ops => fifo (waiting ++ [event]) ops
  | Pop :: ops =>
      let '(rest, popped) := fifo (tail waiting) ops in
      (rest, default NULL (head waiting) :: popped)
  end.

(** *** Click state *)

(** One remembered press: time, button, x, y. *)
Record slot := {
  slot_time : Z;
  slot_button : Z;
  slot_x : Z;
  slot_y : Z }.

Definition empty_slot : slot :=
  {| slot_time := 0; slot_button := -1; slot_x := 0; slot_y := 0 |}.

Definition slot_of (backend : ClutterBackend) (i : nat) : slot :=
  {| slot_time := idx (button_click_time backend) i;
     slot_button := idx (button_number backend) i;
     slot_x := idx (button_x_ backend) i;
     slot_y := idx (button_y_ backend) i |}.

Definition press_of (event : ClutterEvent) : slot :=
  {| slot_time := button_time (button event);
     slot_button := button_button (button event);
     slot_x := button_x (button event);
     slot_y := button_y (button event) |}.

(** The backend with slot 0 set to [s0] and slot 1 to [s1], the queue and
    the settings as they are. *)
Definition with_slots (backend : ClutterBackend) (s0 s1 : slot) : ClutterBackend :=
  {| events_queue := events_queue backend;
     double_click_time := double_click_time backend;
     double_click_distance := double_click_distance backend;
     button_click_time := (slot_time s0, slot_time s1);
     button_number := (slot_button s0, slot_button s1);
     button_x_ := (slot_x s0, slot_x s1);
     button_y_ := (slot_y s0, slot_y s1) |}.

(** The test of the transition rule as the specification words it:
    [t - S.time < window], [b == S.button], [|x - S.x| <= ClickDistance],
    [|y - S.y| <= ClickDistance]. *)
Definition within (window distance : Z) (P S : slot) : bool :=
  (slot_time P - slot_time S <? window)
  && (slot_button P =? slot_button S)
  && (Z.abs (slot_x P - slot_x S) <=? distance)
  && (Z.abs (slot_y P - slot_y S) <=? distance).

(** The differences of the coordinates are in the range of [gint]. *)
Definition gint_differences (P S : slot) : Prop :=
  is_gint (slot_x P - slot_x S) /\ is_gint (slot_y P - slot_y S).

(** The transition rule as the specification words it, with the test
    [within]: the triple-click test against slot 1 first, with the window
    of twice the double-click interval, then the double-click test against
    slot 0. *)
Definition click_rule (backend : ClutterBackend) (event : ClutterEvent)
    : ClutterBackend * list ClutterEvent :=
  let P := press_of event in
  let S0 := slot_of backend 0 in
  let S1 := slot_of backend 1 in
  let interval := double_click_time backend in
  let distance := double_click_distance backend in
  if within (2 * interval) distance P S1 then
    (with_slots backend empty_slot empty_slot,
     [set_type CLUTTER_3BUTTON_PRESS event])
  else if within interval distance P S0 then
    (with_slots backend P S0, [set_type CLUTTER_2BUTTON_PRESS event])
  else
    (with_slots backend P empty_slot, []).

(** The three-branch rule over the code's own test [click_test]. *)
Definition three_branch (backend : ClutterBackend) (event : ClutterEvent)
    : ClutterBackend * list ClutterEvent :=
  let P := press_of event in
  let S0 := slot_of backend 0 in
  if click_test backend event 1 (2 * double_click_time backend) then
    (with_slots backend empty_slot empty_slot,
     [set_type CLUTTER_3BUTTON_PRESS event])
  else if click_test backend event 0 (double_click_time backend) then
    (with_slots backend P S0, [set_type CLUTTER_2BUTTON_PRESS event])
  else
    (with_slots backend P empty_slot, []).

(** When the times, the button and the window are in range and the window
    added to the slot's time does not leave the 32-bit range. *)
Definition in_range (window : Z) (P S : slot) : Prop :=
  0 <= slot_time P /\ 0 <= slot_time S /\ 0 <= window
  /\ slot_time S + window < guint32_modulus
  /\ 0 <= slot_button P < guint32_modulus - 1
  /\ -1 <= slot_button S < guint32_modulus - 1.

(** *** Translators: the claim of verbatim stamping *)

(** The accepted event carries the record's time and meta state. *)
Definition stamped_verbatim (a_event : AInputEvent)
    (result : bool * ClutterEvent) : Prop :=
  fst result = true ->
  clutter_event_get_time (Some (snd result)) = AMotionEvent_getEventTime a_event
  /\ clutter_event_get_state (Some (snd result)) = AMotionEvent_getMetaState a_event.

(** *** Key symbols *)

(** The Latin-1 ranges that map to themselves. *)
Definition latin1 (keyval : Z) : Prop :=
  0x20 <= keyval <= 0x7e \/ 0xa0 <= keyval <= 0xff.

(** The top byte and the low 24 bits of a 32-bit key symbol. *)
Definition top_byte (keyval : Z) : Z := (keyval / 2 ^ 24) mod 2 ^ 8.
Definition low_24_bits (keyval : Z) : Z := keyval mod 2 ^ 24.

(** The keysyms of the table increase strictly. *)
Definition sorted_table (tab : list keysym_entry) : Prop :=
  forall (i j : nat) (ei ej : keysym_entry),
    tab !! i = Some ei -> tab !! j = Some ej -> (i < j)%nat ->
    keysym ei < keysym ej.

(** What a search of [tab] for [keyval] answers with: the [ucs] of the
    entry for [keyval], 0 when the table has none. *)
Definition answers (tab : list keysym_entry) (keyval r : Z) : Prop :=
  (forall e, In e tab -> keysym e = keyval -> r = ucs e)
  /\ ((forall e, In e tab -> keysym e <> keyval) -> r = 0).

(** *** Lifecycle: whether a command's calls resize the surface and ask
    for a re-layout *)

Definition resizes_and_relayouts (width height : Z) (r : cmd_result) : Prop :=
  In (cogl_android_onscreen_update_size width height) (calls r)
  /\ In clutter_actor_queue_relayout (calls r).

(** *** More vocabulary: memory, handlers, commands *)

(** The registry [event_hash] lists exactly the allocated events; before it
    is made there are none. *)
Definition registry_exact (mem : EventMemory) : Prop :=
  match event_hash mem with
  | None => events mem = ∅
  | Some hash => hash = dom (events mem)
  end.

(** A request to [_clutter_set_events_handler]. *)
Record handler_request := {
  req_func : pointer;
  req_data : pointer;
  req_destroy : pointer }.

Definition handler_of (r : handler_request) : EventsHandler :=
  {| _clutter_event_func := req_func r; _clutter_event_data := req_data r;
     _clutter_event_destroy := req_destroy r |}.

(** The requests made one after the other; the calls of destroy notifiers
    are listed in order. *)
Fixpoint set_events_handlers (globals : EventsHandler)
    (requests : list handler_request) : EventsHandler * list destroy_call :=
  match requests with
  | [] => (globals, [])
  | r :: requests =>
      let '(globals, called) :=
        _clutter_set_events_handler (req_func r) (req_data r) (req_destroy r)
          globals in
      let '(globals, later) := set_events_handlers globals requests in
      (globals, called ++ later)
  end.

(** The destroy call that replacing a handler makes, if it has a
    notifier. *)
Definition destroy_call_of (h : EventsHandler) : option destroy_call :=
  match _clutter_event_destroy h with
  | Some destroy_ => Some {| notifier := destroy_;
                             notified := _clutter_event_data h |}
  | None => None
  end.

(** A button number other than the all-ones pattern that the empty slot's
    -1 converts to. *)
Definition ordinary_button (b : Z) : Prop := 0 <= b < guint32_modulus - 1.

(** A command as it reaches the handler: what the collaborators answer,
    the glue's state, and the command. *)
Record delivery := {
  d_world : Collaborators;
  d_app : android_app;
  d_cmd : app_cmd }.

(** Commands handled one after the other, up to the one that ends the
    process. *)
Fixpoint handle_cmds (application : ClutterAndroidApplication)
    (deliveries : list delivery) : cmd_result :=
  match deliveries with
  | [] => {| application_after := application; calls := []; ending := Returned |}
  | d :: deliveries =>
      let r := clutter_android_handle_cmd (d_world d) (d_app d) application (d_cmd d) in
      match ending r with
      | Exited status => r
      | Returned =>
          let r' := handle_cmds (application_after r) deliveries in
          {| application_after := application_after r';
             calls := calls r ++ calls r';
             ending := ending r' |}
      end
  end.

End reference.

(** ** Concrete inputs used by the examples *)

Module samples.
Import glib clutter_event clutter_android_application.

(** An application inside [clutter_android_application_run]'s wait, on the
    main loop at address 1. *)
Definition waiting_application : ClutterAndroidApplication :=
  {| have_window := false; wait_for_window := Some 1%positive |}.

Definition running_application : ClutterAndroidApplication :=
  {| have_window := true; wait_for_window := NULL |}.

Definition app_with_window (width height : Z) : android_app :=
  {| window := Some {| window_width := width; window_height := height |} |}.

Definition app_without_window : android_app := {| window := None |}.

Definition stage_of (width height : Z) : Collaborators :=
  {| ready_initialized := true;
     stage_width := inject_Z width; stage_height := inject_Z height |}.

(** A pointer moving at time 100 with no modifier held. *)
Definition move_at_100 : AInputEvent :=
  {| a_type := AINPUT_EVENT_TYPE_MOTION; a_action := AMOTION_EVENT_ACTION_MOVE;
     a_event_time := 100; a_x := inject_Z 10; a_y := inject_Z 20;
     a_meta_state := 0; a_key_code := 0 |}.

(** A touch at time 100, at (10, 20). *)
Definition down_at_100 : AInputEvent :=
  {| a_type := AINPUT_EVENT_TYPE_MOTION; a_action := AMOTION_EVENT_ACTION_DOWN;
     a_event_time := 100; a_x := inject_Z 10; a_y := inject_Z 20;
     a_meta_state := 0; a_key_code := 0 |}.

(** A second touch, at time 300 and at (12, 19), with pointer-index bits
    set in the action. *)
Definition second_touch : AInputEvent :=
  {| a_type := AINPUT_EVENT_TYPE_MOTION; a_action := 0x100;
     a_event_time := 300; a_x := 25 # 2; a_y := inject_Z 19;
     a_meta_state := 0; a_key_code := 0 |}.

(** A key record at time 100 whose meta state reads [AKEY_STATE_DOWN]. *)
Definition key_at_100 : AInputEvent :=
  {| a_type := AINPUT_EVENT_TYPE_KEY; a_action := 0;
     a_event_time := 100; a_x := inject_Z 0; a_y := inject_Z 0;
     a_meta_state := AKEY_STATE_DOWN; a_key_code := 29 |}.

(** A key record whose own state is down, with no modifier held: the meta
    state is 0. *)
Definition key_down_plain : AInputEvent :=
  {| a_type := AINPUT_EVENT_TYPE_KEY; a_action := AKEY_STATE_DOWN;
     a_event_time := 100; a_x := inject_Z 0; a_y := inject_Z 0;
     a_meta_state := 0; a_key_code := 29 |}.

(** A key record whose own state is up, with Shift held: the meta state is
    [AMETA_SHIFT_ON], 1. *)
Definition key_up_shifted : AInputEvent :=
  {| a_type := AINPUT_EVENT_TYPE_KEY; a_action := AKEY_STATE_UP;
     a_event_time := 100; a_x := inject_Z 0; a_y := inject_Z 0;
     a_meta_state := 1; a_key_code := 29 |}.

(** A backend whose slots hold two presses close to the end of the 32-bit
    range of times. *)
Definition late_backend : ClutterBackend :=
  {| events_queue := None;
     double_click_time := 250; double_click_distance := 5;
     button_click_time := (4294967050, 4294967000); button_number := (1, 1);
     button_x_ := (0, 0); button_y_ := (0, 0) |}.

(** A button press with button 1 at the given time and place. *)
Definition press (time x y : Z) : ClutterEvent :=
  set_type CLUTTER_BUTTON_PRESS
    (set_button
       {| button_type := CLUTTER_BUTTON_PRESS; button_time := time;
          button_x := x; button_y := y; button_modifier_state := 0;
          button_button := 1; button_click_count := 1;
          button_device := NULL |}
       zeroed_event).

(** A backend with no queue yet, empty click slots, a double-click time of
    250 and a distance of 5. *)
Definition fresh_backend : ClutterBackend :=
  {| events_queue := None;
     double_click_time := 250; double_click_distance := 5;
     button_click_time := (0, 0); button_number := (-1, -1);
     button_x_ := (0, 0); button_y_ := (0, 0) |}.

(** A three-entry keysym table: Aogonek, breve, Lstroke. *)
Definition small_table : list keysym_entry :=
  [ {| keysym := 0x01a1; ucs := 0x0104 |};
    {| keysym := 0x01a2; ucs := 0x02d8 |};
    {| keysym := 0x01a3; ucs := 0x0141 |} ].

(** A memory holding one event, a press, at address 1. *)
Definition memory_with_press : EventMemory :=
  {| events := {[ 1%positive := press 100 10 20 ]};
     event_hash := Some {[ 1%positive ]} |}.

(** An allocator: an address not in use. *)
Definition first_free (live : gmap addr ClutterEvent) : addr := fresh (dom live).

End samples.

(** * Properties *)

Import glib clutter_event clutter_android_application reference samples.

(** ** Integer conversions *)

Lemma to_guint32_range z : is_guint32 (to_guint32 z).
Proof. unfold is_guint32, to_guint32, guint32_modulus. apply Z.mod_pos_bound. lia. Qed.

Lemma to_guint32_id z : is_guint32 z -> to_guint32 z = z.
Proof. unfold is_guint32, to_guint32. intros H. now apply Z.mod_small. Qed.

Lemma ABS_abs a : ABS a = Z.abs a.
Proof. unfold ABS. destruct (Z.ltb_spec a 0); lia. Qed.

Lemma gint_of_gfloat_integral (q : Q) (z : Z) :
  (q == inject_Z z)%Q -> gint_of_gfloat q = z.
Proof.
  unfold Qeq, gint_of_gfloat, inject_Z. simpl. intros H.
  rewrite Z.mul_1_r in H. rewrite H. apply Z.quot_mul. lia.
Qed.

Lemma to_gint_id z : is_gint z -> to_gint z = z.
Proof.
  unfold is_gint, to_gint, guint32_modulus. intros H.
  rewrite Z.mod_small; lia.
Qed.

Lemma to_gint_range z : is_gint (to_gint z).
Proof.
  unfold is_gint, to_gint, guint32_modulus.
  pose proof (Z.mod_pos_bound (z + 2 ^ 31) (2 ^ 32) ltac:(lia)). lia.
Qed.

(** The distance the code computes from a difference [d] of coordinates:
    at most [|d|], and [|d|] itself when [d] is in the range of [gint]. *)
Lemma gint_distance_le d : to_guint32 (ABS (to_gint d)) <= Z.abs d.
Proof.
  pose proof (to_gint_range d) as Hr. unfold is_gint in Hr.
  rewrite ABS_abs, to_guint32_id by (unfold is_guint32, guint32_modulus; lia).
  destruct (Z_lt_le_dec (Z.abs d) (2 ^ 31)) as [Hsmall | Hbig]; [|lia].
  rewrite to_gint_id by (unfold is_gint; lia). lia.
Qed.

Lemma gint_distance_eq d : is_gint d -> to_guint32 (ABS (to_gint d)) = Z.abs d.
Proof.
  intros H. rewrite to_gint_id by exact H. unfold is_gint in H.
  rewrite ABS_abs. apply to_guint32_id. unfold is_guint32, guint32_modulus. lia.
Qed.

Lemma gfloat_of_gint_small i : - 2 ^ 24 <= i <= 2 ^ 24 -> gfloat_of_gint i = i.
Proof.
  intros H. unfold gfloat_of_gint.
  destruct (Z.ltb_spec (Z.abs i) (2 ^ 24)) as [|Hge]; [reflexivity|].
  assert (Hi : i = 2 ^ 24 \/ i = - 2 ^ 24) by lia.
  destruct Hi as [-> | ->]; reflexivity.
Qed.

(** Above [2^24] not every integer is a [gfloat]: 16777217 becomes
    16777216, and 16777219, half way between two, becomes the even
    16777220. *)
Example gfloat_of_gint_rounds :
  gfloat_of_gint 16777217 = 16777216 /\ gfloat_of_gint 16777219 = 16777220
  /\ gfloat_of_gint (-16777217) = -16777216.
Proof. repeat split. Qed.

(** ** Accessors *)

(** C10: for an event of kind [CLUTTER_3BUTTON_PRESS] the accessors return
    their defaults ([CLUTTER_CURRENT_TIME], 0 and (0, 0)) and not the fields
    of the button member, while for [CLUTTER_2BUTTON_PRESS] they return the
    button member's time, modifier state and coordinates. *)
Theorem accessors_triple_press_defaults (e : ClutterEvent) (x y : Z) :
  (type e = CLUTTER_3BUTTON_PRESS ->
     clutter_event_get_time (Some e) = CLUTTER_CURRENT_TIME
     /\ clutter_event_get_state (Some e) = 0
     /\ clutter_event_get_coords (Some e) (Some x) (Some y) = (Some 0, Some 0))
  /\ (type e = CLUTTER_2BUTTON_PRESS ->
     clutter_event_get_time (Some e) = button_time (button e)
     /\ clutter_event_get_state (Some e) = button_modifier_state (button e)
     /\ clutter_event_get_coords (Some e) (Some x) (Some y)
        = (Some (button_x (button e)), Some (button_y (button e)))).
Proof.
  unfold clutter_event_get_time, clutter_event_get_state, clutter_event_get_coords.
  split; intros ->; repeat split.
Qed.

Lemma accessors_triple_press_defaults_witness :
  clutter_event_get_time (Some (set_type CLUTTER_3BUTTON_PRESS (press 100 10 20)))
    = CLUTTER_CURRENT_TIME
  /\ clutter_event_get_time (Some (set_type CLUTTER_2BUTTON_PRESS (press 100 10 20)))
    = 100.
Proof.
  split.
  - exact (proj1 (proj1 (accessors_triple_press_defaults
             (set_type CLUTTER_3BUTTON_PRESS (press 100 10 20)) 7 7) eq_refl)).
  - exact (proj1 (proj2 (accessors_triple_press_defaults
             (set_type CLUTTER_2BUTTON_PRESS (press 100 10 20)) 7 7) eq_refl)).
Defined.

(** ** Lifecycle commands *)

Section commands.

Variables (world : Collaborators) (app : android_app)
  (application : ClutterAndroidApplication).

(** C1 (as amended): on [APP_CMD_TERM_WINDOW] the handler wakes the waiter
    when a wait for the window is active and stops the run loop otherwise,
    and in both cases it then ends the process with [exit (0)]. *)
Theorem term_window_quits_then_exits :
  let r := clutter_android_handle_cmd world app application APP_CMD_TERM_WINDOW in
  calls r = match wait_for_window application with
            | Some loop => [g_main_loop_quit loop]
            | None => [clutter_main_quit]
            end
  /\ ending r = Exited 0
  /\ application_after r = application.
Proof. cbn. auto. Qed.

(** C8 (as amended): with a native window, [APP_CMD_WINDOW_REDRAW_NEEDED]
    resizes the rendering surface and asks for a re-layout exactly when the
    window's dimensions, converted to [gfloat], differ from the stage's
    size, and makes no call otherwise, whereas [APP_CMD_WINDOW_RESIZED] sets
    the stage's size to the window's dimensions without comparing them;
    without a native window both commands make no call.  Neither changes
    the application or ends the process.  A dimension of magnitude up to
    [2^24] is its own conversion. *)
Theorem window_size_commands :
  let redraw :=
    clutter_android_handle_cmd world app application APP_CMD_WINDOW_REDRAW_NEEDED in
  let resized :=
    clutter_android_handle_cmd world app application APP_CMD_WINDOW_RESIZED in
  match window app with
  | Some w =>
      let width := window_width w in
      let height := window_height w in
      ((stage_width world == inject_Z (gfloat_of_gint width)
        /\ stage_height world == inject_Z (gfloat_of_gint height))%Q ->
       calls redraw = [])
      /\ (~ (stage_width world == inject_Z (gfloat_of_gint width)
             /\ stage_height world == inject_Z (gfloat_of_gint height))%Q ->
          calls redraw = [cogl_android_onscreen_update_size width height;
                          clutter_actor_queue_relayout])
      /\ calls resized = [clutter_actor_set_size width height]
      /\ (- 2 ^ 24 <= width <= 2 ^ 24 -> gfloat_of_gint width = width)
      /\ (- 2 ^ 24 <= height <= 2 ^ 24 -> gfloat_of_gint height = height)
  | None => calls redraw = [] /\ calls resized = []
  end
  /\ application_after redraw = application /\ ending redraw = Returned
  /\ application_after resized = application /\ ending resized = Returned.
Proof.
  cbn. destruct (window app) as [w|]; cbn; [|auto].
  unfold gfloat_ne_int.
  split; [|auto].
  split; [|split; [|split; [reflexivity | split; apply gfloat_of_gint_small]]].
  - intros [Hw Hh]. apply Qeq_bool_iff in Hw, Hh. now rewrite Hw, Hh.
  - intros Hne.
    destruct (Qeq_bool (stage_width world) _) eqn:Hw;
      destruct (Qeq_bool (stage_height world) _) eqn:Hh; cbn; try reflexivity.
    exfalso. apply Hne. split; now apply Qeq_bool_iff.
Qed.

End commands.

(** C1, the claim as stated fails: in the wait for the window the handler
    wakes the waiter and still ends the process. *)
Lemma term_window_while_waiting_exits :
  let r := clutter_android_handle_cmd (stage_of 0 0) app_without_window
             waiting_application APP_CMD_TERM_WINDOW in
  calls r = [g_main_loop_quit 1%positive]
  /\ ending r = Exited 0
  /\ ending r <> Returned.
Proof. cbn. repeat split. discriminate. Qed.

(** C8, the claim as stated fails for [APP_CMD_WINDOW_RESIZED]: with the
    stage already at the window's size it still sets the size, and with a
    different size it neither resizes the surface nor asks for a
    re-layout. *)
Lemma window_resized_does_not_compare :
  calls (clutter_android_handle_cmd (stage_of 100 200) (app_with_window 100 200)
           running_application APP_CMD_WINDOW_RESIZED)
    = [clutter_actor_set_size 100 200]
  /\ ~ resizes_and_relayouts 300 400
         (clutter_android_handle_cmd (stage_of 100 200) (app_with_window 300 400)
            running_application APP_CMD_WINDOW_RESIZED).
Proof.
  split; [reflexivity|].
  unfold resizes_and_relayouts. cbn. intros [[H|[]] _]. discriminate H.
Qed.

(** The comparison is one of [gfloat]s: a window 16777217 wide on a stage
    16777216 wide is not found to differ. *)
Example redraw_compares_as_gfloat :
  calls (clutter_android_handle_cmd (stage_of 16777216 200)
           (app_with_window 16777217 200) running_application
           APP_CMD_WINDOW_REDRAW_NEEDED) = [].
Proof. reflexivity. Qed.

Lemma window_size_commands_witness :
  calls (clutter_android_handle_cmd (stage_of 100 200) (app_with_window 300 400)
           running_application APP_CMD_WINDOW_REDRAW_NEEDED)
    = [cogl_android_onscreen_update_size 300 400; clutter_actor_queue_relayout].
Proof.
  apply (proj1 (proj2 (proj1 (window_size_commands (stage_of 100 200)
           (app_with_window 300 400) running_application)))).
  cbn. intros [H _]. discriminate H.
Defined.

(** ** Translators *)

(** C2 (as amended): an event the motion translator accepts carries the
    record's event time, reduced to the 32 bits of the time field; its
    modifier state is not the record's: it is [CLUTTER_BUTTON1_MASK] for a
    motion and what the event held before the call for a press or a release.
    An event the key translator accepts keeps the time and the modifier
    state the event held before the call. *)
Theorem translators_time_and_state dev event a e' :
  (translate_motion_event dev event a = (true, e') ->
     clutter_event_get_time (Some e') = to_guint32 (AMotionEvent_getEventTime a)
     /\ clutter_event_get_state (Some e')
        = match type e' with
          | CLUTTER_MOTION => CLUTTER_BUTTON1_MASK
          | _ => button_modifier_state (button event)
          end)
  /\ (translate_key_event event a = (true, e') ->
     clutter_event_get_time (Some e') = key_time (key event)
     /\ clutter_event_get_state (Some e') = key_modifier_state (key event)).
Proof.
  split.
  - unfold translate_motion_event.
    repeat (destruct (_ =? _)); intros [= <-]; split; reflexivity.
  - unfold translate_key_event.
    destruct (_ =? _); [intros [= <-]; split; reflexivity|].
    destruct (_ || _); intros [= <-]; split; reflexivity.
Qed.

Lemma translators_time_and_state_witness :
  clutter_event_get_time
    (Some (snd (translate_motion_event NULL (new_input_event NULL) move_at_100)))
    = 100
  /\ clutter_event_get_state
       (Some (snd (translate_motion_event NULL (new_input_event NULL) move_at_100)))
     = CLUTTER_BUTTON1_MASK.
Proof.
  exact (proj1 (translators_time_and_state NULL (new_input_event NULL) move_at_100
                  (snd (translate_motion_event NULL (new_input_event NULL) move_at_100)))
           eq_refl).
Defined.

(** C2, the claim as stated fails: a motion with no modifier held is given
    the modifier state [CLUTTER_BUTTON1_MASK], and an accepted key record of
    time 100 yields an event of time 0. *)
Lemma translators_not_verbatim :
  ~ stamped_verbatim move_at_100
      (translate_motion_event NULL (new_input_event NULL) move_at_100)
  /\ ~ stamped_verbatim key_at_100
         (translate_key_event (new_input_event NULL) key_at_100).
Proof.
  split; intros H; destruct (H eq_refl) as [Ht Hs]; cbn in Ht, Hs; discriminate.
Qed.

(** C6: a motion record whose masked action is none of Down, Up and Move is
    refused (no event is pushed); one whose action is Down, with time 100,
    x 10 and y 20, gives a [CLUTTER_BUTTON_PRESS] with button 1, click count
    1, time 100, x 10 and y 20. *)
Theorem translate_motion_unrecognized_and_down stage dev event a :
  let masked := Z.land (AMotionEvent_getAction a) AMOTION_EVENT_ACTION_MASK in
  (masked <> AMOTION_EVENT_ACTION_DOWN -> masked <> AMOTION_EVENT_ACTION_UP ->
   masked <> AMOTION_EVENT_ACTION_MOVE ->
     translate_motion_event dev event a = (false, event)
     /\ (AInputEvent_getType a = AINPUT_EVENT_TYPE_MOTION ->
         clutter_android_handle_input stage dev a = (false, None)))
  /\ (masked = AMOTION_EVENT_ACTION_DOWN ->
      AMotionEvent_getEventTime a = 100 ->
      (AMotionEvent_getX a 0 == inject_Z 10)%Q ->
      (AMotionEvent_getY a 0 == inject_Z 20)%Q ->
      exists e, translate_motion_event dev event a = (true, e)
        /\ type e = CLUTTER_BUTTON_PRESS
        /\ button_button (button e) = 1
        /\ button_click_count (button e) = 1
        /\ button_time (button e) = 100
        /\ button_x (button e) = 10
        /\ button_y (button e) = 20).
Proof.
  cbn zeta. split.
  - intros Hd Hu Hm. apply Z.eqb_neq in Hd, Hu, Hm.
    assert (Hno : translate_motion_event dev event a = (false, event)).
    { unfold translate_motion_event. now rewrite Hd, Hu, Hm. }
    split; [exact Hno|].
    intros Hty. unfold clutter_android_handle_input. rewrite Hty.
    change (AINPUT_EVENT_TYPE_MOTION =? AINPUT_EVENT_TYPE_KEY) with false.
    rewrite Z.eqb_refl. unfold translate_motion_event.
    now rewrite Hd, Hu, Hm.
  - intros Hd Ht Hx Hy. unfold translate_motion_event. rewrite Hd. cbn.
    eexists. split; [reflexivity|]. cbn.
    rewrite Ht, (gint_of_gfloat_integral _ _ Hx), (gint_of_gfloat_integral _ _ Hy).
    repeat split.
Qed.

Lemma translate_motion_unrecognized_and_down_witness :
  exists e, translate_motion_event NULL (new_input_event NULL) down_at_100 = (true, e)
    /\ type e = CLUTTER_BUTTON_PRESS
    /\ button_button (button e) = 1
    /\ button_click_count (button e) = 1
    /\ button_time (button e) = 100
    /\ button_x (button e) = 10
    /\ button_y (button e) = 20.
Proof.
  apply (proj2 (translate_motion_unrecognized_and_down NULL NULL
                  (new_input_event NULL) down_at_100));
    reflexivity.
Defined.

(** What the key translator does with the value it reads into [state],
    which is the record's meta state: [AKEY_STATE_UP] gives a
    [CLUTTER_KEY_RELEASE], [AKEY_STATE_DOWN] and [AKEY_STATE_VIRTUAL] alike
    a [CLUTTER_KEY_PRESS], and every other value is refused. *)
Lemma translate_key_states stage dev event a :
  let state := AMotionEvent_getMetaState a in
  let keyed t :=
    set_type t (set_key
      {| key_type := t; key_time := key_time (key event);
         key_modifier_state := key_modifier_state (key event);
         key_keyval := key_keyval (key event);
         key_hardware_keycode := key_hardware_keycode (key event);
         key_unicode_value := to_guint32 (AKeyEvent_getKeyCode a) |} event) in
  (state = AKEY_STATE_UP ->
     translate_key_event event a = (true, keyed CLUTTER_KEY_RELEASE))
  /\ (state = AKEY_STATE_DOWN \/ state = AKEY_STATE_VIRTUAL ->
     translate_key_event event a = (true, keyed CLUTTER_KEY_PRESS))
  /\ (state <> AKEY_STATE_UP -> state <> AKEY_STATE_DOWN ->
      state <> AKEY_STATE_VIRTUAL ->
     fst (translate_key_event event a) = false
     /\ (AInputEvent_getType a = AINPUT_EVENT_TYPE_KEY ->
         clutter_android_handle_input stage dev a = (false, None))).
Proof.
  cbn zeta. unfold clutter_android_handle_input, translate_key_event.
  split; [|split].
  - intros ->. reflexivity.
  - intros [-> | ->]; reflexivity.
  - intros Hu Hd Hv.
    destruct (Z.eqb_spec (AMotionEvent_getMetaState a) AKEY_STATE_UP); [contradiction|].
    destruct (Z.eqb_spec (AMotionEvent_getMetaState a) AKEY_STATE_DOWN); [contradiction|].
    destruct (Z.eqb_spec (AMotionEvent_getMetaState a) AKEY_STATE_VIRTUAL); [contradiction|].
    split; [reflexivity|]. intros ->. reflexivity.
Qed.

Lemma translate_key_states_witness :
  type (snd (translate_key_event (new_input_event NULL) key_at_100)) = CLUTTER_KEY_PRESS.
Proof.
  rewrite (proj1 (proj2 (translate_key_states NULL NULL (new_input_event NULL) key_at_100))
             (or_introl eq_refl)).
  reflexivity.
Defined.

(** C7: the code does not do what the claim says.  The translator never
    reads the state of the key: the value it switches on comes from
    [AMotionEvent_getMetaState], the modifiers held, and the same record with
    any other state translates alike.  A key that is down with no modifier
    held (meta state 0, which is also [AKEY_STATE_UP]) is pushed as a
    [CLUTTER_KEY_RELEASE], and a key that is up with Shift held (meta state
    1, which is also [AKEY_STATE_DOWN]) as a [CLUTTER_KEY_PRESS]. *)
Theorem key_state_is_not_read :
  (forall event a (state : Z),
     translate_key_event event
       {| a_type := a_type a; a_action := state;
          a_event_time := a_event_time a; a_x := a_x a; a_y := a_y a;
          a_meta_state := a_meta_state a; a_key_code := a_key_code a |}
     = translate_key_event event a)
  /\ a_action key_down_plain = AKEY_STATE_DOWN
  /\ (exists e, clutter_android_handle_input NULL NULL key_down_plain = (true, Some e)
              /\ type e = CLUTTER_KEY_RELEASE)
  /\ a_action key_up_shifted = AKEY_STATE_UP
  /\ (exists e, clutter_android_handle_input NULL NULL key_up_shifted = (true, Some e)
              /\ type e = CLUTTER_KEY_PRESS).
Proof.
  split; [reflexivity|]. split; [reflexivity|].
  split; [eexists; split; reflexivity|]. split; [reflexivity|].
  eexists; split; reflexivity.
Qed.

(** ** Event queue *)

Lemma pending_push backend event :
  pending (_clutter_event_queue_push backend event) = pending backend ++ [event].
Proof. unfold pending, _clutter_event_queue_push. now destruct (events_queue backend). Qed.

Lemma g_queue_pop_tail_rev queue :
  rev (fst (g_queue_pop_tail queue)) = tail (rev queue)
  /\ snd (g_queue_pop_tail queue) = default NULL (head (rev queue)).
Proof.
  unfold g_queue_pop_tail.
  destruct queue as [|first rest] using rev_ind; [now split|].
  rewrite last_snoc, removelast_last, rev_unit. now split.
Qed.

Lemma pending_pop backend :
  pending (fst (_clutter_event_queue_pop backend)) = tail (pending backend)
  /\ snd (_clutter_event_queue_pop backend) = default NULL (head (pending backend)).
Proof.
  unfold pending, _clutter_event_queue_pop.
  destruct (events_queue backend) as [queue|] eqn:Hq; cbn.
  - pose proof (g_queue_pop_tail_rev queue) as H.
    destruct (g_queue_pop_tail queue). exact H.
  - rewrite Hq. now split.
Qed.

Lemma run_queue_refines_fifo ops : forall backend,
  (pending (fst (run_queue backend ops)), snd (run_queue backend ops))
  = fifo (pending backend) ops.
Proof.
  induction ops as [|[event|] ops IH]; intros backend; cbn.
  - reflexivity.
  - now rewrite IH, pending_push.
  - destruct (pending_pop backend) as [Hq He].
    destruct (_clutter_event_queue_pop backend) as [backend' event]. cbn in Hq, He.
    specialize (IH backend'). rewrite Hq in IH.
    destruct (run_queue backend' ops) as [backend'' popped]. cbn in IH |- *.
    destruct (fifo (tail (pending backend)) ops) as [waiting popped'].
    injection IH as -> ->. now rewrite He.
Qed.

Lemma fifo_pushes pushed : forall waiting ops,
  fifo waiting (map Push pushed ++ ops) = fifo (waiting ++ pushed) ops.
Proof.
  induction pushed as [|event pushed IH]; intros waiting ops; cbn.
  - now rewrite app_nil_r.
  - now rewrite IH, <- app_assoc.
Qed.

Lemma fifo_pops waiting :
  fifo waiting (repeat Pop (length waiting)) = ([], waiting).
Proof.
  induction waiting as [|event waiting IH]; cbn; [reflexivity|].
  now rewrite IH.
Qed.

(** C4: the queue is first-in first-out.  After pushing P1..Pn, popping as
    many times as events are held returns them oldest first, those pushed
    in the order P1..Pn; under any interleaving of pushes and pops each pop
    returns the oldest event still held; and a pop on an empty queue
    returns [NULL]. *)
Theorem event_queue_is_fifo (backend : ClutterBackend)
    (pushed : list pointer) (ops : list queue_op) :
  snd (run_queue backend
         (map Push pushed
          ++ repeat Pop (length (pending backend) + length pushed)))
    = pending backend ++ pushed
  /\ (pending (fst (run_queue backend ops)), snd (run_queue backend ops))
     = fifo (pending backend) ops
  /\ (pending backend = [] -> snd (_clutter_event_queue_pop backend) = NULL).
Proof.
  split; [|split].
  - pose proof (run_queue_refines_fifo
      (map Push pushed ++ repeat Pop (length (pending backend) + length pushed))
      backend) as H.
    rewrite fifo_pushes, <- length_app, fifo_pops in H.
    rewrite <- length_app. now injection H.
  - apply run_queue_refines_fifo.
  - intros Hempty. destruct (pending_pop backend) as [_ ->]. now rewrite Hempty.
Qed.

Lemma event_queue_is_fifo_witness :
  snd (run_queue fresh_backend
         [Push (Some 1%positive); Push (Some 2%positive); Pop; Pop])
    = [Some 1%positive; Some 2%positive]
  /\ snd (_clutter_event_queue_pop fresh_backend) = NULL.
Proof.
  split.
  - exact (proj1 (event_queue_is_fifo fresh_backend
                    [Some 1%positive; Some 2%positive] [])).
  - exact (proj2 (proj2 (event_queue_is_fifo fresh_backend [] [])) eq_refl).
Defined.

(** ** Copying events *)

Lemma first_free_is_free live : live !! first_free live = None.
Proof. unfold first_free. apply not_elem_of_dom, is_fresh. Qed.

(** C5: the copy of an event has every field equal to the original's, it
    is another object than the original, and storing anything into the copy
    afterwards leaves the original as it was. *)
Theorem clutter_event_copy_independent
    (g_slice_alloc : gmap addr ClutterEvent -> addr)
    (mem : EventMemory) (event : addr) (e : ClutterEvent) :
  (forall live, live !! g_slice_alloc live = None) ->
  events mem !! event = Some e ->
  exists mem' new_event,
    clutter_event_copy g_slice_alloc (Some event) mem = Some (mem', Some new_event)
    /\ new_event <> event
    /\ events mem' !! new_event = Some e
    /\ events mem' !! event = Some e
    /\ (forall e', <[new_event := e']> (events mem') !! event = Some e)
    /\ (forall other, other <> new_event ->
          events mem' !! other = events mem !! other).
Proof.
  intros Hfresh He. unfold clutter_event_copy, clutter_event_new. cbn.
  set (new_event := g_slice_alloc (events mem)).
  assert (Hne : new_event <> event).
  { intros Heq. specialize (Hfresh (events mem)). fold new_event in Hfresh.
    rewrite Heq, He in Hfresh. discriminate. }
  rewrite lookup_insert_ne by exact Hne. rewrite He.
  eexists _, new_event. split; [reflexivity|]. cbn.
  split; [exact Hne|].
  split; [now rewrite lookup_insert_eq|].
  split; [now rewrite !lookup_insert_ne by exact Hne|].
  split.
  - intros e'. now rewrite !lookup_insert_ne by exact Hne.
  - intros other Hother. now rewrite !lookup_insert_ne by (intros Heq; now apply Hother).
Qed.

Lemma clutter_event_copy_independent_witness :
  exists mem' new_event,
    clutter_event_copy first_free (Some 1%positive) memory_with_press
      = Some (mem', Some new_event)
    /\ new_event <> 1%positive
    /\ events mem' !! new_event = Some (press 100 10 20)
    /\ events mem' !! 1%positive = Some (press 100 10 20)
    /\ (forall e', <[new_event := e']> (events mem') !! 1%positive
                   = Some (press 100 10 20))
    /\ (forall other, other <> new_event ->
          events mem' !! other = events memory_with_press !! other).
Proof.
  exact (clutter_event_copy_independent first_free memory_with_press
           1%positive (press 100 10 20) first_free_is_free eq_refl).
Defined.

(** ** Click detection *)

Lemma button_generate_three_branch backend event :
  _clutter_event_button_generate backend event = three_branch backend event.
Proof.
  unfold _clutter_event_button_generate, three_branch.
  destruct (click_test backend event 1 _); [reflexivity|].
  destruct (click_test backend event 0 _); reflexivity.
Qed.

Lemma click_test_within backend event (i : nat) (window : Z) :
  in_range window (press_of event) (slot_of backend i) ->
  gint_differences (press_of event) (slot_of backend i) ->
  click_test backend event i window
  = within window (double_click_distance backend)
      (press_of event) (slot_of backend i).
Proof.
  unfold in_range, gint_differences, click_test, within. cbn.
  intros (Ht & Hs & Hw & Hsum & Hb & Hn) [Hx Hy].
  rewrite !gint_distance_eq by assumption.
  rewrite (to_guint32_id (_ + window)) by (unfold is_guint32; lia).
  rewrite (to_guint32_id (button_button _)) by (unfold is_guint32; lia).
  f_equal. f_equal. f_equal.
  - destruct (Z.ltb_spec (button_time (button event))
                (idx (button_click_time backend) i + window));
      destruct (Z.ltb_spec (button_time (button event)
                            - idx (button_click_time backend) i) window);
      lia || reflexivity.
  - assert (Hcases : idx (button_number backend) i = -1
                     \/ 0 <= idx (button_number backend) i) by lia.
    destruct Hcases as [-> | Hpos].
    + change (to_guint32 (-1)) with (guint32_modulus - 1).
      destruct (Z.eqb_spec (button_button (button event)) (guint32_modulus - 1));
        destruct (Z.eqb_spec (button_button (button event)) (-1));
        lia || reflexivity.
    + now rewrite to_guint32_id by (unfold is_guint32; lia).
Qed.

(** C3 (as amended): when the times are not negative, the button is an
    unsigned 32-bit number other than the all-ones pattern (which the empty
    slot's -1 is compared as), the differences of the coordinates are in the range of
    [gint], and neither slot 1's time plus twice the double-click time nor
    slot 0's time plus the double-click time leaves the unsigned 32-bit
    range, the synthesizer is the three-branch rule, tried in this order:
    the test against slot 1 with the window of twice the double-click time
    puts the press with its kind set to [CLUTTER_3BUTTON_PRESS] and empties
    both slots; else the test against slot 0 with the window of the
    double-click time puts the press with its kind set to
    [CLUTTER_2BUTTON_PRESS], moves slot 0 to slot 1 and stores the press in
    slot 0; else slot 1 is emptied and the press is stored in slot 0. *)
Theorem button_generate_follows_rule backend event :
  let P := press_of event in
  in_range (2 * double_click_time backend) P (slot_of backend 1) ->
  in_range (double_click_time backend) P (slot_of backend 0) ->
  gint_differences P (slot_of backend 1) ->
  gint_differences P (slot_of backend 0) ->
  _clutter_event_button_generate backend event = click_rule backend event.
Proof.
  cbn zeta. intros Hr1 Hr0 Hd1 Hd0.
  rewrite button_generate_three_branch. unfold three_branch, click_rule.
  now rewrite !click_test_within by assumption.
Qed.

(** C3, the claim as stated fails where a window wraps: slot 1 holds a
    press at time 4294967000 and slot 0 one at 4294967050, and the press
    comes at 4294967100, at the same place with the same button.  By the
    rule it is a triple click, 100 after the press of slot 1.  The code
    compares its time with 4294967000 + 500 and with 4294967050 + 250, which
    are 204 and 4 in 32 bits, and takes it for a plain press. *)
Lemma button_generate_departs_when_window_wraps :
  click_rule late_backend (press 4294967100 0 0)
    = (with_slots late_backend empty_slot empty_slot,
       [set_type CLUTTER_3BUTTON_PRESS (press 4294967100 0 0)])
  /\ _clutter_event_button_generate late_backend (press 4294967100 0 0)
     = (with_slots late_backend (press_of (press 4294967100 0 0)) empty_slot, [])
  /\ _clutter_event_button_generate late_backend (press 4294967100 0 0)
     <> click_rule late_backend (press 4294967100 0 0).
Proof. vm_compute. repeat split. discriminate. Qed.

(** The presses of the specification's example, at a click distance of 5
    and a double-click time of 250: the second press is a double click, the
    third a triple click that empties the slots, the fourth neither. *)
Example click_sequence :
  let '(b1, put1) := _clutter_event_button_generate fresh_backend (press 0 0 0) in
  let '(b2, put2) := _clutter_event_button_generate b1 (press 100 2 1) in
  let '(b3, put3) := _clutter_event_button_generate b2 (press 150 1 0) in
  let '(b4, put4) := _clutter_event_button_generate b3 (press 5000 40 40) in
  put1 = []
  /\ put2 = [set_type CLUTTER_2BUTTON_PRESS (press 100 2 1)]
  /\ put3 = [set_type CLUTTER_3BUTTON_PRESS (press 150 1 0)]
  /\ b3 = fresh_backend
  /\ put4 = [].
Proof. vm_compute. repeat split. Qed.

Lemma button_generate_follows_rule_witness :
  _clutter_event_button_generate
    (with_slots fresh_backend (press_of (press 100 2 1)) (press_of (press 0 0 0)))
    (press 150 1 0)
  = click_rule
      (with_slots fresh_backend (press_of (press 100 2 1)) (press_of (press 0 0 0)))
      (press 150 1 0).
Proof.
  apply (button_generate_follows_rule
           (with_slots fresh_backend (press_of (press 100 2 1))
              (press_of (press 0 0 0)))
           (press 150 1 0));
    unfold in_range, gint_differences, is_gint, guint32_modulus; cbn; lia.
Defined.

(** A window that wraps: slot 1 holds a press at time 4294967000, the
    press comes 100 later at the same place, and the sum of the slot's time
    and the window of 500 is 204 in 32 bits, so the code's test fails where
    the difference of the times is inside the window. *)
Example click_window_wraps :
  let backend :=
    with_slots fresh_backend (press_of (press 4294967050 0 0))
      (press_of (press 4294967000 0 0)) in
  click_test backend (press 4294967100 0 0) 1 500 = false
  /\ within 500 5 (press_of (press 4294967100 0 0)) (slot_of backend 1) = true.
Proof. vm_compute. split; reflexivity. Qed.

(** ** Key symbols *)

Lemma land_top_byte keyval :
  Z.land keyval 0xff000000 = top_byte keyval * 2 ^ 24.
Proof.
  unfold top_byte.
  rewrite <- Z.shiftr_div_pow2, <- (Z.land_ones _ 8), <- Z.shiftl_mul_pow2 by lia.
  change 0xff000000 with (Z.shiftl (Z.ones 8) 24).
  apply Z.bits_inj'. intros n Hn.
  rewrite Z.land_spec.
  destruct (Z.ltb_spec n 24).
  - rewrite !Z.shiftl_spec_low by lia. apply andb_false_r.
  - rewrite !Z.shiftl_spec, Z.land_spec, Z.shiftr_spec by lia.
    do 2 f_equal. lia.
Qed.

Lemma land_low_24_bits keyval : Z.land keyval 0x00ffffff = low_24_bits keyval.
Proof.
  unfold low_24_bits. change 0x00ffffff with (Z.ones 24).
  apply Z.land_ones. lia.
Qed.

Lemma latin1_test keyval :
  ((keyval >=? 0x0020) && (keyval <=? 0x007e))
  || ((keyval >=? 0x00a0) && (keyval <=? 0x00ff)) = true <-> latin1 keyval.
Proof. unfold latin1. rewrite !Z.geb_leb. lia. Qed.

Section keysym_table.

Variable tab : list keysym_entry.
Hypothesis tab_sorted : sorted_table tab.
Variable keyval : Z.

Lemma answers_hit (i : nat) entry :
  tab !! i = Some entry -> keysym entry = keyval -> answers tab keyval (ucs entry).
Proof.
  intros Hi Hk. split.
  - intros e He Hke. apply list_elem_of_In, list_elem_of_lookup in He as [j Hj].
    destruct (Nat.lt_trichotomy i j) as [Hlt | [-> | Hlt]].
    + pose proof (tab_sorted _ _ _ _ Hi Hj Hlt). lia.
    + congruence.
    + pose proof (tab_sorted _ _ _ _ Hj Hi Hlt). lia.
  - intros Hnone. exfalso. apply (Hnone entry); [|exact Hk].
    apply list_elem_of_In, list_elem_of_lookup. eauto.
Qed.

Lemma keysym_search_answers (fuel : nat) : forall min max,
  0 <= min -> max < Z.of_nat (length tab) -> min <= max + 1 ->
  max - min + 1 < Z.of_nat fuel ->
  (forall (i : nat) e, tab !! i = Some e -> Z.of_nat i < min -> keysym e < keyval) ->
  (forall (i : nat) e, tab !! i = Some e -> max < Z.of_nat i -> keyval < keysym e) ->
  exists r, keysym_search fuel tab keyval min max = Some r /\ answers tab keyval r.
Proof.
  induction fuel as [|fuel IH]; intros min max Hmin Hmax Hle Hfuel Hbelow Habove.
  - lia.
  - cbn [keysym_search]. rewrite Z.geb_leb.
    destruct (Z.leb_spec min max) as [Hrun | Hstop].
    + set (mid := Z.quot (min + max) 2).
      assert (Hmid : min <= mid <= max).
      { unfold mid. rewrite Z.quot_div_nonneg by lia.
        split; [apply Z.div_le_lower_bound | apply Z.div_le_upper_bound]; lia. }
      destruct (Z.ltb_spec mid 0) as [|_]; [lia|].
      destruct (lookup_lt_is_Some_2 tab (Z.to_nat mid)) as [entry Hentry]; [lia|].
      rewrite Hentry, Z.gtb_ltb.
      destruct (Z.ltb_spec (keysym entry) keyval) as [Hlow | Hnotlow].
      * apply IH; try lia; [|exact Habove].
        intros i e Hi Hlt.
        destruct (decide (i = Z.to_nat mid)) as [-> | Hne]; [congruence|].
        assert (Hord : (i < Z.to_nat mid)%nat) by lia.
        pose proof (tab_sorted _ _ _ _ Hi Hentry Hord). lia.
      * destruct (Z.ltb_spec keyval (keysym entry)) as [Hhigh | Hnothigh].
        -- apply IH; try lia; [exact Hbelow|].
           intros i e Hi Hgt.
           destruct (decide (i = Z.to_nat mid)) as [-> | Hne]; [congruence|].
           assert (Hord : (Z.to_nat mid < i)%nat) by lia.
           pose proof (tab_sorted _ _ _ _ Hentry Hi Hord). lia.
        -- eexists. split; [reflexivity|].
           apply (answers_hit _ _ Hentry). lia.
    + exists 0. split; [reflexivity|]. split; [|reflexivity].
      intros e He Hk. apply list_elem_of_In, list_elem_of_lookup in He as [i Hi].
      destruct (Z.lt_ge_cases (Z.of_nat i) min) as [Hlt | Hge].
      * pose proof (Hbelow _ _ Hi Hlt). lia.
      * assert (Hgt : max < Z.of_nat i) by lia.
        pose proof (Habove _ _ Hi Hgt). lia.
Qed.

(** C9: the lookup first maps a key symbol of the Latin-1 ranges to
    itself, then one whose top byte is 0x01 to its low 24 bits, and only
    otherwise searches the sorted table, where it returns the unicode value
    of the entry for the key symbol, and 0 when the table has no entry for
    it. *)
Theorem clutter_keysym_to_unicode_paths :
  (latin1 keyval -> clutter_keysym_to_unicode tab keyval = Some keyval)
  /\ (~ latin1 keyval -> top_byte keyval = 1 ->
      clutter_keysym_to_unicode tab keyval = Some (low_24_bits keyval))
  /\ (~ latin1 keyval -> top_byte keyval <> 1 ->
      exists r, clutter_keysym_to_unicode tab keyval = Some r
        /\ keysym_search (S (length tab)) tab keyval 0 (Z.of_nat (length tab) - 1)
           = Some r
        /\ answers tab keyval r).
Proof.
  unfold clutter_keysym_to_unicode. cbn zeta.
  split; [|split].
  - intros Hl. apply latin1_test in Hl. now rewrite Hl.
  - intros Hn Htop.
    destruct (_ || _) eqn:Hl; [now apply latin1_test in Hl|].
    rewrite land_top_byte, Htop, land_low_24_bits. reflexivity.
  - intros Hn Htop.
    destruct (_ || _) eqn:Hl; [now apply latin1_test in Hl|].
    rewrite land_top_byte.
    destruct (Z.eqb_spec (top_byte keyval * 2 ^ 24) 0x01000000) as [Heq | _].
    { exfalso. apply Htop. change 0x01000000 with (1 * 2 ^ 24) in Heq. lia. }
    assert (Hsearch : exists r,
      keysym_search (S (length tab)) tab keyval 0 (Z.of_nat (length tab) - 1) = Some r
      /\ answers tab keyval r).
    { apply keysym_search_answers; try lia.
      intros i e Hi Hgt. apply lookup_lt_Some in Hi. lia. }
    destruct Hsearch as [r [Hr Hans]]. exists r. auto.
Qed.

End keysym_table.

Lemma small_table_sorted : sorted_table small_table.
Proof.
  intros i j ei ej Hi Hj Hlt.
  destruct i as [|[|[|i]]]; destruct j as [|[|[|j]]];
    cbn in Hi, Hj; try discriminate; try lia;
    injection Hi as <-; injection Hj as <-; cbn; lia.
Qed.

Lemma clutter_keysym_to_unicode_paths_witness :
  clutter_keysym_to_unicode small_table 0x41 = Some 0x41
  /\ clutter_keysym_to_unicode small_table 0x010020ac = Some (low_24_bits 0x010020ac)
  /\ exists r, clutter_keysym_to_unicode small_table 0x01a2 = Some r
       /\ keysym_search 4 small_table 0x01a2 0 2 = Some r
       /\ answers small_table 0x01a2 r.
Proof.
  pose proof (clutter_keysym_to_unicode_paths small_table small_table_sorted) as H.
  split; [|split].
  - apply (proj1 (H 0x41)). unfold latin1. lia.
  - apply (proj1 (proj2 (H 0x010020ac))); [unfold latin1; lia | reflexivity].
  - apply (proj2 (proj2 (H 0x01a2))); [unfold latin1; lia | discriminate].
Defined.

(** * Further properties *)

(** ** Peeking and pending events *)

Lemma last_head_rev (queue : list pointer) : last queue = head (rev queue).
Proof.
  destruct queue as [|first rest] using rev_ind; [reflexivity|].
  now rewrite last_snoc, rev_unit.
Qed.

(** X1: a peek returns what the next pop returns, the oldest event held,
    [NULL] when none is held. *)
Theorem queue_peek_is_next_pop backend :
  _clutter_event_queue_peek backend = snd (_clutter_event_queue_pop backend)
  /\ clutter_event_peek backend = default NULL (head (pending backend)).
Proof.
  destruct (pending_pop backend) as [_ Hpop]. rewrite Hpop.
  unfold clutter_event_peek, _clutter_event_queue_peek, pending.
  destruct (events_queue backend) as [queue|]; cbn; [|now split].
  now rewrite last_head_rev.
Qed.

Lemma check_pending_iff backend :
  _clutter_event_queue_check_pending backend = true <-> pending backend <> [].
Proof.
  unfold _clutter_event_queue_check_pending, pending.
  destruct (events_queue backend) as [[|first rest]|]; cbn.
  - split; [discriminate | congruence].
  - split; [|reflexivity]. intros _ H. now apply app_eq_nil in H as [_ H].
  - split; [discriminate | congruence].
Qed.

(** X2: events are reported pending exactly when the queue holds one: always
    after a push, and never once as many pops as events held have been
    made. *)
Theorem queue_check_pending backend event :
  (_clutter_event_queue_check_pending backend = true <-> pending backend <> [])
  /\ _clutter_event_queue_check_pending (_clutter_event_queue_push backend event)
     = true
  /\ _clutter_event_queue_check_pending
       (fst (run_queue backend (repeat Pop (length (pending backend))))) = false.
Proof.
  split; [apply check_pending_iff|]. split.
  - apply check_pending_iff. rewrite pending_push. now destruct (pending backend).
  - apply not_true_is_false. rewrite check_pending_iff.
    pose proof (run_queue_refines_fifo (repeat Pop (length (pending backend)))
                  backend) as H.
    rewrite fifo_pops in H. injection H as H _. rewrite H. auto.
Qed.

(** ** The memory of events *)

Section memory.

Variable g_slice_alloc : gmap addr ClutterEvent -> addr.
Hypothesis alloc_fresh : forall live, live !! g_slice_alloc live = None.

Lemma clutter_event_copy_live mem event e :
  events mem !! event = Some e ->
  g_slice_alloc (events mem) <> event
  /\ clutter_event_copy g_slice_alloc (Some event) mem
     = Some ({| events := <[g_slice_alloc (events mem) := e]> (events mem);
                event_hash := Some ({[g_slice_alloc (events mem)]}
                                    ∪ default ∅ (event_hash mem)) |},
             Some (g_slice_alloc (events mem))).
Proof.
  intros He.
  assert (Hne : g_slice_alloc (events mem) <> event).
  { intros Heq. specialize (alloc_fresh (events mem)).
    rewrite Heq, He in alloc_fresh. discriminate. }
  split; [exact Hne|].
  unfold clutter_event_copy, clutter_event_new. cbn.
  rewrite lookup_insert_ne by exact Hne. rewrite He, insert_insert_eq.
  now destruct (event_hash mem).
Qed.


(** X7: two copies of an event live at two addresses, both other than the
    original's, and the three hold the same fields. *)
Theorem event_copies_are_distinct mem event e :
  events mem !! event = Some e ->
  exists mem1 copy1 mem2 copy2,
    clutter_event_copy g_slice_alloc (Some event) mem = Some (mem1, Some copy1)
    /\ clutter_event_copy g_slice_alloc (Some event) mem1 = Some (mem2, Some copy2)
    /\ copy1 <> event /\ copy2 <> event /\ copy1 <> copy2
    /\ events mem2 !! event = Some e
    /\ events mem2 !! copy1 = Some e
    /\ events mem2 !! copy2 = Some e.
Proof.
  intros He.
  destruct (clutter_event_copy_live mem event e He) as [Hne1 Hcopy1].
  set (copy1 := g_slice_alloc (events mem)) in *.
  set (mem1 := {| events := <[copy1 := e]> (events mem);
                  event_hash := Some ({[copy1]} ∪ default ∅ (event_hash mem)) |}) in *.
  assert (He1 : events mem1 !! event = Some e).
  { cbn. now rewrite lookup_insert_ne by exact Hne1. }
  destruct (clutter_event_copy_live mem1 event e He1) as [Hne2 Hcopy2].
  set (copy2 := g_slice_alloc (events mem1)) in *.
  assert (Hne12 : copy2 <> copy1).
  { intros Heq. pose proof (alloc_fresh (events mem1)) as Hf.
    fold copy2 in Hf. rewrite Heq in Hf. cbn in Hf.
    rewrite lookup_insert_eq in Hf. discriminate. }
  eexists mem1, copy1, _, copy2.
  split; [exact Hcopy1|]. split; [exact Hcopy2|]. cbn.
  repeat split; try assumption; try congruence.
  - now rewrite !lookup_insert_ne by assumption.
  - now rewrite lookup_insert_ne, lookup_insert_eq by assumption.
  - now rewrite lookup_insert_eq.
Qed.

(** X4: putting a live event on an empty queue queues a private copy: the
    next pop returns another address holding the same fields, and freeing
    the original leaves that copy in place. *)
Theorem clutter_event_put_queues_copy backend mem event e :
  events mem !! event = Some e ->
  pending backend = [] ->
  exists backend' mem' copy,
    clutter_event_put g_slice_alloc (Some event) backend mem = Some (backend', mem')
    /\ snd (_clutter_event_queue_pop backend') = Some copy
    /\ copy <> event
    /\ events mem' !! copy = Some e
    /\ events (clutter_event_free (Some event) mem') !! copy = Some e.
Proof.
  intros He Hempty.
  destruct (clutter_event_copy_live mem event e He) as [Hne Hcopy].
  unfold clutter_event_put. rewrite Hcopy.
  eexists _, _, _. split; [reflexivity|].
  split.
  - destruct (pending_pop (_clutter_event_queue_push backend
                             (Some (g_slice_alloc (events mem))))) as [_ ->].
    now rewrite pending_push, Hempty.
  - split; [exact Hne|]. cbn. split.
    + now rewrite lookup_insert_eq.
    + rewrite lookup_delete_ne by congruence. now rewrite lookup_insert_eq.
Qed.

End memory.

(** X3: putting [NULL] allocates nothing and still queues a [NULL]: events
    are then reported pending, though on a queue that was empty the next pop
    returns [NULL]. *)
Theorem clutter_event_put_null
    (g_slice_alloc : gmap addr ClutterEvent -> addr) backend mem :
  exists backend',
    clutter_event_put g_slice_alloc NULL backend mem = Some (backend', mem)
    /\ pending backend' = pending backend ++ [NULL]
    /\ _clutter_event_queue_check_pending backend' = true
    /\ (_clutter_event_queue_check_pending backend = false ->
        snd (_clutter_event_queue_pop backend') = NULL).
Proof.
  eexists. split; [reflexivity|].
  split; [apply pending_push|].
  split.
  - apply check_pending_iff. rewrite pending_push. now destruct (pending backend).
  - intros Hnone. destruct (pending_pop (_clutter_event_queue_push backend NULL))
      as [_ ->].
    rewrite pending_push.
    destruct (pending backend) as [|first rest] eqn:Hq; [reflexivity|].
    apply not_true_iff_false in Hnone. exfalso. apply Hnone, check_pending_iff.
    now rewrite Hq.
Qed.

(** X5: the registry of live events stays exact: it lists the allocated
    events, no more and no fewer, after making, copying and freeing. *)
Theorem event_registry_stays_exact
    (g_slice_alloc : gmap addr ClutterEvent -> addr) mem t event :
  registry_exact mem ->
  registry_exact (fst (clutter_event_new g_slice_alloc t mem))
  /\ registry_exact (clutter_event_free event mem)
  /\ (forall mem' copy,
        clutter_event_copy g_slice_alloc event mem = Some (mem', copy) ->
        registry_exact mem').
Proof.
  unfold registry_exact. intros Hexact.
  assert (Hnew : forall t', {[g_slice_alloc (events mem)]}
                    ∪ match event_hash mem with Some hash => hash | None => ∅ end
                    = dom (<[g_slice_alloc (events mem) := t']> (events mem))).
  { intros t'. rewrite dom_insert_L.
    destruct (event_hash mem) as [hash|]; [now rewrite Hexact|].
    now rewrite Hexact, dom_empty_L. }
  split; [apply Hnew|]. split.
  - destruct event as [event|]; [|exact Hexact]. cbn.
    destruct (event_hash mem) as [hash|]; cbn.
    + now rewrite dom_delete_L, Hexact.
    + rewrite Hexact. apply delete_empty.
  - intros mem' copy. destruct event as [event|]; cbn.
    + destruct (_ !! event); [|discriminate].
      intros [= <- _]. cbn. rewrite insert_insert_eq. apply Hnew.
    + now intros [= <- _].
Qed.

Lemma memory_with_press_exact : registry_exact memory_with_press.
Proof. unfold registry_exact. cbn. now rewrite dom_singleton_L. Qed.

Lemma event_registry_stays_exact_witness :
  registry_exact (fst (clutter_event_new first_free CLUTTER_MOTION memory_with_press))
  /\ registry_exact (clutter_event_free (Some 1%positive) memory_with_press).
Proof.
  split.
  - exact (proj1 (event_registry_stays_exact first_free memory_with_press
                    CLUTTER_MOTION (Some 1%positive) memory_with_press_exact)).
  - exact (proj1 (proj2 (event_registry_stays_exact first_free memory_with_press
                    CLUTTER_MOTION (Some 1%positive) memory_with_press_exact))).
Defined.


Lemma event_copies_are_distinct_witness :
  exists mem1 copy1 mem2 copy2,
    clutter_event_copy first_free (Some 1%positive) memory_with_press
      = Some (mem1, Some copy1)
    /\ clutter_event_copy first_free (Some 1%positive) mem1 = Some (mem2, Some copy2)
    /\ copy1 <> 1%positive /\ copy2 <> 1%positive /\ copy1 <> copy2
    /\ events mem2 !! 1%positive = Some (press 100 10 20)
    /\ events mem2 !! copy1 = Some (press 100 10 20)
    /\ events mem2 !! copy2 = Some (press 100 10 20).
Proof.
  exact (event_copies_are_distinct first_free first_free_is_free
           memory_with_press 1%positive (press 100 10 20) eq_refl).
Defined.

Lemma clutter_event_put_queues_copy_witness :
  exists backend' mem' copy,
    clutter_event_put first_free (Some 1%positive) fresh_backend memory_with_press
      = Some (backend', mem')
    /\ snd (_clutter_event_queue_pop backend') = Some copy
    /\ copy <> 1%positive
    /\ events mem' !! copy = Some (press 100 10 20)
    /\ events (clutter_event_free (Some 1%positive) mem') !! copy
       = Some (press 100 10 20).
Proof.
  exact (clutter_event_put_queues_copy first_free first_free_is_free
           fresh_backend memory_with_press 1%positive (press 100 10 20)
           eq_refl eq_refl).
Defined.

(** X8: an event just made has the kind asked for, in [type] and in
    [any.type], no flags, and otherwise reads as zero: time
    [CLUTTER_CURRENT_TIME], no modifier, coordinates (0, 0), button 0; it is
    entered in the registry. *)
Theorem clutter_event_new_reads_zero
    (g_slice_alloc : gmap addr ClutterEvent -> addr) mem t (x y : Z) :
  exists e hash,
    events (fst (clutter_event_new g_slice_alloc t mem))
      !! snd (clutter_event_new g_slice_alloc t mem) = Some e
    /\ event_hash (fst (clutter_event_new g_slice_alloc t mem)) = Some hash
    /\ snd (clutter_event_new g_slice_alloc t mem) ∈ hash
    /\ clutter_event_type (Some e) = t
    /\ any_type (any e) = t
    /\ flags e = CLUTTER_EVENT_NONE
    /\ clutter_event_get_time (Some e) = CLUTTER_CURRENT_TIME
    /\ clutter_event_get_state (Some e) = 0
    /\ clutter_event_get_coords (Some e) (Some x) (Some y) = (Some 0, Some 0)
    /\ clutter_button_event_button (Some (button e)) = 0
    /\ clutter_key_event_symbol (Some (key e)) = 0.
Proof.
  eexists _, _. cbn. split; [apply lookup_insert_eq|].
  split; [reflexivity|]. split; [set_solver|].
  destruct t; repeat split.
Qed.

(** ** The events handler *)

Lemma removelast_cons {A} (a b : A) (l : list A) :
  removelast (a :: b :: l) = a :: removelast (b :: l).
Proof. reflexivity. Qed.

(** X9: over any series of handler changes, the destroy notifier of each
    handler that is replaced is called once, on that handler's data and in
    the order of the changes (a handler without notifier is skipped); the
    handler set last is in place and has not been notified. *)
Theorem events_handler_destroys_replaced requests : forall globals,
  snd (set_events_handlers globals requests)
    = omap destroy_call_of (removelast (globals :: map handler_of requests))
  /\ fst (set_events_handlers globals requests)
     = default globals (last (map handler_of requests)).
Proof.
  induction requests as [|r requests IH]; intros globals; [now split|].
  cbn [set_events_handlers map]. unfold _clutter_set_events_handler.
  fold (handler_of r).
  destruct (IH (handler_of r)) as [Hcalls Hlast].
  destruct (set_events_handlers (handler_of r) requests) as [globals' later].
  cbn [fst snd] in *. subst globals' later.
  rewrite removelast_cons.
  split.
  - change (omap destroy_call_of (globals :: ?l))
      with (match destroy_call_of globals with
            | Some c => c :: omap destroy_call_of l
            | None => omap destroy_call_of l
            end).
    unfold destroy_call_of at 2.
    now destruct (_clutter_event_destroy globals).
  - destruct requests as [|h requests]; [reflexivity|].
    cbn [map]. rewrite last_cons_cons.
    destruct (last (handler_of h :: map handler_of requests)) eqn:Hlast;
      [reflexivity|].
    now apply last_None in Hlast.
Qed.

(** ** More on click detection *)

Lemma click_test_other_button backend event (i : nat) (window : Z) :
  to_guint32 (button_button (button event))
    <> to_guint32 (idx (button_number backend) i) ->
  click_test backend event i window = false.
Proof.
  intros Hne. unfold click_test.
  apply Z.eqb_neq in Hne. rewrite Hne.
  now rewrite andb_false_r.
Qed.

Lemma click_test_empty_slot backend event (i : nat) (window : Z) :
  idx (button_number backend) i = -1 ->
  ordinary_button (button_button (button event)) ->
  click_test backend event i window = false.
Proof.
  unfold ordinary_button. intros Hn Hb. apply click_test_other_button.
  rewrite Hn, to_guint32_id by (unfold is_guint32; lia).
  change (to_guint32 (-1)) with (guint32_modulus - 1). lia.
Qed.

Lemma click_test_far backend event (i : nat) (window : Z) :
  (is_gint (button_x (button event) - idx (button_x_ backend) i)
   /\ double_click_distance backend
      < Z.abs (button_x (button event) - idx (button_x_ backend) i))
  \/ (is_gint (button_y (button event) - idx (button_y_ backend) i)
      /\ double_click_distance backend
         < Z.abs (button_y (button event) - idx (button_y_ backend) i)) ->
  click_test backend event i window = false.
Proof.
  unfold click_test. intros [[Hr H] | [Hr H]].
  - rewrite (gint_distance_eq _ Hr).
    apply Z.leb_gt in H. rewrite H. now rewrite andb_false_r.
  - rewrite (gint_distance_eq _ Hr).
    apply Z.leb_gt in H. rewrite H. now rewrite andb_false_r.
Qed.

Lemma click_test_near backend event (i : nat) (window : Z) :
  0 <= idx (button_click_time backend) i ->
  0 <= window ->
  idx (button_click_time backend) i + window < guint32_modulus ->
  button_time (button event) < idx (button_click_time backend) i + window ->
  button_button (button event) = idx (button_number backend) i ->
  Z.abs (button_x (button event) - idx (button_x_ backend) i)
    <= double_click_distance backend ->
  Z.abs (button_y (button event) - idx (button_y_ backend) i)
    <= double_click_distance backend ->
  click_test backend event i window = true.
Proof.
  intros Hs Hw Hsum Ht Hb Hx Hy. unfold click_test.
  rewrite Hb, Z.eqb_refl.
  rewrite (to_guint32_id (_ + window)) by (unfold is_guint32; lia).
  pose proof (gint_distance_le
                (button_x (button event) - idx (button_x_ backend) i)) as Hx'.
  pose proof (gint_distance_le
                (button_y (button event) - idx (button_y_ backend) i)) as Hy'.
  apply Z.ltb_lt in Ht.
  assert (Hxd := proj2 (Z.leb_le _ _) (Z.le_trans _ _ _ Hx' Hx)).
  assert (Hyd := proj2 (Z.leb_le _ _) (Z.le_trans _ _ _ Hy' Hy)).
  now rewrite Ht, Hxd, Hyd.
Qed.

Lemma button_generate_on_empty backend event :
  idx (button_number backend) 0 = -1 ->
  idx (button_number backend) 1 = -1 ->
  ordinary_button (button_button (button event)) ->
  _clutter_event_button_generate backend event
  = (with_slots backend (press_of event) empty_slot, []).
Proof.
  intros H0 H1 Hb. rewrite button_generate_three_branch. unfold three_branch.
  now rewrite !click_test_empty_slot.
Qed.

(** X10: the click detector hands at most one event to
    [clutter_backend_put_event], and that event is the press with only its
    kind changed, to double or to triple press, every member as it was; the
    slots it leaves are: both empty after a triple press, the press in slot
    0 over the former slot 0 in slot 1 after a double press, and the press
    in slot 0 over an empty slot 1 when it hands over nothing. *)
Theorem button_generate_frame backend event :
  let r := _clutter_event_button_generate backend event in
  (snd r = []
   /\ slot_of (fst r) 0 = press_of event /\ slot_of (fst r) 1 = empty_slot)
  \/ (snd r = [set_type CLUTTER_2BUTTON_PRESS event]
      /\ slot_of (fst r) 0 = press_of event
      /\ slot_of (fst r) 1 = slot_of backend 0)
  \/ (snd r = [set_type CLUTTER_3BUTTON_PRESS event]
      /\ slot_of (fst r) 0 = empty_slot /\ slot_of (fst r) 1 = empty_slot).
Proof.
  cbn zeta. unfold _clutter_event_button_generate, _clutter_synthesize_click.
  destruct (click_test backend event 1 _).
  { right; right. repeat split. }
  destruct (click_test backend event 0 _).
  { right; left. repeat split. }
  left. repeat split.
Qed.

(** X11: a press farther than the click distance, in x or in y, from each
    of the two remembered presses, by a difference that is in the range of
    [gint], is never taken for a double or triple click, whatever its time
    and button: it is stored in slot 0 and slot 1 is emptied. *)
Theorem far_press_is_plain backend event :
  (is_gint (button_x (button event) - slot_x (slot_of backend 0))
   /\ double_click_distance backend
      < Z.abs (button_x (button event) - slot_x (slot_of backend 0))
   \/ is_gint (button_y (button event) - slot_y (slot_of backend 0))
      /\ double_click_distance backend
         < Z.abs (button_y (button event) - slot_y (slot_of backend 0))) ->
  (is_gint (button_x (button event) - slot_x (slot_of backend 1))
   /\ double_click_distance backend
      < Z.abs (button_x (button event) - slot_x (slot_of backend 1))
   \/ is_gint (button_y (button event) - slot_y (slot_of backend 1))
      /\ double_click_distance backend
         < Z.abs (button_y (button event) - slot_y (slot_of backend 1))) ->
  _clutter_event_button_generate backend event
  = (with_slots backend (press_of event) empty_slot, []).
Proof.
  intros H0 H1. rewrite button_generate_three_branch. unfold three_branch.
  now rewrite !click_test_far.
Qed.

Lemma far_press_is_plain_witness :
  _clutter_event_button_generate
    (with_slots fresh_backend (press_of (press 100 0 0)) (press_of (press 50 0 0)))
    (press 120 6 0)
  = (with_slots fresh_backend (press_of (press 120 6 0)) empty_slot, []).
Proof.
  apply (far_press_is_plain
           (with_slots fresh_backend (press_of (press 100 0 0))
              (press_of (press 50 0 0)))
           (press 120 6 0)); left; unfold is_gint; cbn; lia.
Defined.

(** X12: with both slots empty, a press of any button but the one numbered
    by the all-ones pattern is never taken for a double or triple click,
    whatever its time and place. *)
Theorem press_on_empty_slots_is_plain backend event :
  slot_button (slot_of backend 0) = -1 ->
  slot_button (slot_of backend 1) = -1 ->
  ordinary_button (button_button (button event)) ->
  _clutter_event_button_generate backend event
  = (with_slots backend (press_of event) empty_slot, []).
Proof. apply button_generate_on_empty. Qed.

Lemma press_on_empty_slots_is_plain_witness :
  _clutter_event_button_generate fresh_backend (press 0 0 0)
  = (with_slots fresh_backend (press_of (press 0 0 0)) empty_slot, []).
Proof.
  apply (press_on_empty_slots_is_plain fresh_backend (press 0 0 0));
    [reflexivity | reflexivity | unfold ordinary_button, guint32_modulus; cbn; lia].
Defined.

(** X13: three presses of one button on empty slots, the second within the
    double-click time and the click distance of the first, the third within
    twice the double-click time and the click distance of the first (it
    need not be near the second): the first hands over nothing, the second a
    double press, the third a triple press, and the slots are empty
    again. *)
Theorem three_presses_make_a_triple backend e1 e2 e3 :
  let dct := double_click_time backend in
  let dist := double_click_distance backend in
  let P1 := press_of e1 in
  let P2 := press_of e2 in
  let P3 := press_of e3 in
  slot_button (slot_of backend 0) = -1 ->
  slot_button (slot_of backend 1) = -1 ->
  ordinary_button (slot_button P1) ->
  slot_button P2 = slot_button P1 ->
  slot_button P3 = slot_button P1 ->
  0 <= slot_time P1 -> 0 <= dct ->
  slot_time P1 + 2 * dct < guint32_modulus ->
  slot_time P2 < slot_time P1 + dct ->
  slot_time P3 < slot_time P1 + 2 * dct ->
  Z.abs (slot_x P2 - slot_x P1) <= dist -> Z.abs (slot_y P2 - slot_y P1) <= dist ->
  Z.abs (slot_x P3 - slot_x P1) <= dist -> Z.abs (slot_y P3 - slot_y P1) <= dist ->
  let r1 := _clutter_event_button_generate backend e1 in
  let r2 := _clutter_event_button_generate (fst r1) e2 in
  let r3 := _clutter_event_button_generate (fst r2) e3 in
  snd r1 = []
  /\ snd r2 = [set_type CLUTTER_2BUTTON_PRESS e2]
  /\ snd r3 = [set_type CLUTTER_3BUTTON_PRESS e3]
  /\ fst r3 = with_slots backend empty_slot empty_slot.
Proof.
  cbn zeta. cbn [press_of slot_of slot_button slot_time slot_x slot_y].
  intros H0 H1 Hb1 Hb2 Hb3 Ht1 Hdct Hsum Ht2 Ht3 Hx2 Hy2 Hx3 Hy3.
  rewrite (button_generate_on_empty backend e1 H0 H1 Hb1). cbn [fst snd].
  split; [reflexivity|].
  set (b1 := with_slots backend (press_of e1) empty_slot).
  assert (Hstep2 : _clutter_event_button_generate b1 e2
            = (with_slots b1 (press_of e2) (slot_of b1 0),
               [set_type CLUTTER_2BUTTON_PRESS e2])).
  { rewrite button_generate_three_branch. unfold three_branch.
    rewrite (click_test_empty_slot b1 e2 1) by (cbn; congruence).
    rewrite (click_test_near b1 e2 0) by (cbn; lia). reflexivity. }
  rewrite Hstep2. cbn [fst snd]. split; [reflexivity|].
  set (b2 := with_slots b1 (press_of e2) (slot_of b1 0)).
  rewrite button_generate_three_branch. unfold three_branch.
  rewrite (click_test_near b2 e3 1) by (cbn; lia).
  split; reflexivity.
Qed.

Lemma three_presses_make_a_triple_witness :
  snd (_clutter_event_button_generate fresh_backend (press 0 0 0)) = []
  /\ snd (_clutter_event_button_generate
            (fst (_clutter_event_button_generate fresh_backend (press 0 0 0)))
            (press 100 2 1))
     = [set_type CLUTTER_2BUTTON_PRESS (press 100 2 1)]
  /\ snd (_clutter_event_button_generate
            (fst (_clutter_event_button_generate
                    (fst (_clutter_event_button_generate fresh_backend (press 0 0 0)))
                    (press 100 2 1)))
            (press 150 1 0))
     = [set_type CLUTTER_3BUTTON_PRESS (press 150 1 0)]
  /\ fst (_clutter_event_button_generate
            (fst (_clutter_event_button_generate
                    (fst (_clutter_event_button_generate fresh_backend (press 0 0 0)))
                    (press 100 2 1)))
            (press 150 1 0))
     = with_slots fresh_backend empty_slot empty_slot.
Proof.
  apply (three_presses_make_a_triple fresh_backend
           (press 0 0 0) (press 100 2 1) (press 150 1 0));
    unfold ordinary_button, guint32_modulus; cbn; lia.
Defined.

(** X14: the empty slot's button number -1 is compared as an unsigned
    32-bit number: with slot 1 empty, a press whose button has the all-ones
    pattern, at a time below twice the double-click time and within the
    click distance of (0, 0), is taken for a triple click. *)
Theorem all_ones_button_matches_empty_slot backend event :
  slot_of backend 1 = empty_slot ->
  to_guint32 (button_button (button event)) = guint32_modulus - 1 ->
  button_time (button event) < to_guint32 (2 * double_click_time backend) ->
  Z.abs (button_x (button event)) <= double_click_distance backend ->
  Z.abs (button_y (button event)) <= double_click_distance backend ->
  _clutter_event_button_generate backend event
  = (with_slots backend empty_slot empty_slot,
     [set_type CLUTTER_3BUTTON_PRESS event]).
Proof.
  intros Hslot Hb Ht Hx Hy.
  rewrite button_generate_three_branch. unfold three_branch.
  injection Hslot as Hst Hsb Hsx Hsy.
  assert (Htest : click_test backend event 1 (2 * double_click_time backend) = true).
  { unfold click_test, idx. rewrite Hst, Hsb, Hsx, Hsy, Hb, !Z.sub_0_r.
    change (to_guint32 (-1)) with (guint32_modulus - 1).
    rewrite Z.eqb_refl. apply Z.ltb_lt in Ht.
    pose proof (gint_distance_le (button_x (button event))) as Hx'.
    pose proof (gint_distance_le (button_y (button event))) as Hy'.
    assert (Hxd := proj2 (Z.leb_le _ _) (Z.le_trans _ _ _ Hx' Hx)).
    assert (Hyd := proj2 (Z.leb_le _ _) (Z.le_trans _ _ _ Hy' Hy)).
    rewrite Z.add_0_l. now rewrite Ht, Hxd, Hyd. }
  now rewrite Htest.
Qed.

Lemma all_ones_button_matches_empty_slot_witness :
  _clutter_event_button_generate fresh_backend
    (set_button
       {| button_type := CLUTTER_BUTTON_PRESS; button_time := 10;
          button_x := 1; button_y := 1; button_modifier_state := 0;
          button_button := 4294967295; button_click_count := 1;
          button_device := NULL |} (press 10 1 1))
  = (with_slots fresh_backend empty_slot empty_slot,
     [set_type CLUTTER_3BUTTON_PRESS
        (set_button
           {| button_type := CLUTTER_BUTTON_PRESS; button_time := 10;
              button_x := 1; button_y := 1; button_modifier_state := 0;
              button_button := 4294967295; button_click_count := 1;
              button_device := NULL |} (press 10 1 1))]).
Proof.
  apply all_ones_button_matches_empty_slot; try reflexivity; cbn; lia.
Defined.

(** ** More on key symbols *)

Section any_table.

Variable tab : list keysym_entry.
Variable keyval : Z.

(** What a search can only answer: 0, or the [ucs] of an entry for
    [keyval]. *)
Let genuine (r : Z) : Prop :=
  r = 0 \/ exists e, In e tab /\ keysym e = keyval /\ ucs e = r.

Lemma keysym_search_halves (fuel : nat) : forall min max,
  0 <= min -> max < Z.of_nat (length tab) -> min <= max + 1 ->
  max - min + 1 < 2 ^ (Z.of_nat fuel - 1) ->
  exists r, keysym_search fuel tab keyval min max = Some r /\ genuine r.
Proof.
  induction fuel as [|fuel IH]; intros min max Hmin Hmax Hle Hwidth.
  - cbn in Hwidth. lia.
  - replace (Z.of_nat (S fuel) - 1) with (Z.of_nat fuel) in Hwidth by lia.
    cbn [keysym_search]. rewrite Z.geb_leb.
    destruct (Z.leb_spec min max) as [Hrun | Hstop];
      [|exists 0; split; [reflexivity | now left]].
    set (mid := Z.quot (min + max) 2).
    assert (Hmid : min <= mid <= max /\ 2 * mid <= min + max < 2 * mid + 2).
    { unfold mid. rewrite Z.quot_div_nonneg by lia.
      pose proof (Z.div_mod (min + max) 2 ltac:(lia)).
      pose proof (Z.mod_pos_bound (min + max) 2 ltac:(lia)). lia. }
    destruct (Z.ltb_spec mid 0) as [|_]; [lia|].
    destruct (lookup_lt_is_Some_2 tab (Z.to_nat mid)) as [entry Hentry]; [lia|].
    rewrite Hentry, Z.gtb_ltb.
    assert (Hfuel : 0 < Z.of_nat fuel).
    { destruct fuel; [cbn in Hwidth; lia | lia]. }
    assert (Hpow : 2 ^ Z.of_nat fuel = 2 * 2 ^ (Z.of_nat fuel - 1)).
    { rewrite <- Z.pow_succ_r by lia. f_equal. lia. }
    destruct (Z.ltb_spec (keysym entry) keyval) as [Hlow | Hnotlow];
      [apply IH; lia|].
    destruct (Z.ltb_spec keyval (keysym entry)) as [Hhigh | Hnothigh];
      [apply IH; lia|].
    eexists. split; [reflexivity|]. right. exists entry.
    split; [|split; [lia | reflexivity]].
    apply list_elem_of_In, list_elem_of_lookup. eauto.
Qed.

Lemma keysym_search_more_fuel (fuel : nat) : forall min max r (extra : nat),
  keysym_search fuel tab keyval min max = Some r ->
  keysym_search (fuel + extra) tab keyval min max = Some r.
Proof.
  induction fuel as [|fuel IH]; intros min max r extra; [discriminate|].
  cbn [keysym_search Nat.add].
  destruct (max >=? min); [|auto].
  destruct (Z.quot (min + max) 2 <? 0); [auto|].
  destruct (tab !! _) as [entry|]; [|auto].
  destruct (keysym entry <? keyval); [apply IH|].
  destruct (keysym entry >? keyval); [apply IH | auto].
Qed.

Lemma length_below_pow2 : Z.of_nat (length tab) < 2 ^ Z.of_nat (length tab).
Proof. apply Z.pow_gt_lin_r; lia. Qed.

Lemma length_below_pow2_log :
  Z.of_nat (length tab) < 2 ^ Z.log2_up (Z.of_nat (length tab) + 1).
Proof.
  destruct (Z.eq_dec (Z.of_nat (length tab)) 0) as [-> | Hne]; [reflexivity|].
  pose proof (Z.log2_up_spec (Z.of_nat (length tab) + 1) ltac:(lia)). lia.
Qed.

Lemma keysym_lookup_total :
  exists r, clutter_keysym_to_unicode tab keyval = Some r.
Proof.
  unfold clutter_keysym_to_unicode. cbn zeta.
  destruct (_ || _); [eauto|]. destruct (_ =? _); [eauto|].
  destruct (keysym_search_halves (S (length tab))
              0 (Z.of_nat (length tab) - 1)) as [r [Hr _]]; try lia; [|eauto].
  replace (Z.of_nat (S (length tab)) - 1) with (Z.of_nat (length tab)) by lia.
  pose proof length_below_pow2. lia.
Qed.

(** X15: the lookup returns on every table, sorted or not, and its loop
    makes no more rounds than the rounded-up binary logarithm of the
    table's length plus one, and one more for leaving the loop. *)
Theorem keysym_lookup_ends_in_log_rounds :
  (exists r, clutter_keysym_to_unicode tab keyval = Some r)
  /\ exists r,
       keysym_search (S (Z.to_nat (Z.log2_up (Z.of_nat (length tab) + 1))))
         tab keyval 0 (Z.of_nat (length tab) - 1) = Some r
       /\ keysym_search (S (length tab)) tab keyval 0 (Z.of_nat (length tab) - 1)
          = Some r.
Proof.
  pose proof length_below_pow2_log as Hlog.
  pose proof (Z.log2_up_nonneg (Z.of_nat (length tab) + 1)) as Hnonneg.
  destruct (keysym_search_halves
              (S (Z.to_nat (Z.log2_up (Z.of_nat (length tab) + 1))))
              0 (Z.of_nat (length tab) - 1)) as [r [Hr _]]; try lia.
  { replace (Z.of_nat (S _) - 1)
      with (Z.log2_up (Z.of_nat (length tab) + 1)) by lia. lia. }
  assert (Hfull : keysym_search (S (length tab)) tab keyval 0
                    (Z.of_nat (length tab) - 1) = Some r).
  { destruct (keysym_search_halves (S (length tab))
                0 (Z.of_nat (length tab) - 1)) as [r' [Hr' _]]; try lia.
    { replace (Z.of_nat (S (length tab)) - 1) with (Z.of_nat (length tab)) by lia.
      pose proof length_below_pow2. lia. }
    pose proof (keysym_search_more_fuel _ _ _ _ (S (length tab)) Hr) as H1.
    pose proof (keysym_search_more_fuel _ _ _ _
                  (S (Z.to_nat (Z.log2_up (Z.of_nat (length tab) + 1)))) Hr') as H2.
    rewrite Nat.add_comm in H2. congruence. }
  split; [|exists r; auto].
  unfold clutter_keysym_to_unicode. cbn zeta.
  destruct (_ || _); [eauto|]. destruct (_ =? _); eauto.
Qed.

Lemma keysym_lookup_cases r :
  clutter_keysym_to_unicode tab keyval = Some r ->
  (latin1 keyval /\ r = keyval)
  \/ (top_byte keyval = 1 /\ r = low_24_bits keyval)
  \/ r = 0
  \/ exists e, In e tab /\ keysym e = keyval /\ ucs e = r.
Proof.
  unfold clutter_keysym_to_unicode. cbn zeta.
  destruct (_ || _) eqn:Hl.
  { intros [= <-]. left. split; [now apply latin1_test | reflexivity]. }
  rewrite land_top_byte, land_low_24_bits.
  destruct (Z.eqb_spec (top_byte keyval * 2 ^ 24) 0x01000000) as [Heq | _].
  { intros [= <-]. right; left. split; [|reflexivity].
    change 0x01000000 with (1 * 2 ^ 24) in Heq. lia. }
  intros Hr. right; right.
  destruct (keysym_search_halves (S (length tab))
              0 (Z.of_nat (length tab) - 1)) as [r' [Hr' Hgen]]; try lia.
  { replace (Z.of_nat (S (length tab)) - 1) with (Z.of_nat (length tab)) by lia.
    pose proof length_below_pow2. lia. }
  rewrite Hr in Hr'. injection Hr' as <-. exact Hgen.
Qed.

(** X16: on every table, sorted or not, the lookup never answers with the
    value of another key: what it returns is the key symbol itself on the
    Latin-1 path, its low 24 bits on the direct path, and otherwise 0 or
    the [ucs] of an entry whose keysym is the key symbol. *)
Theorem keysym_lookup_is_genuine r :
  clutter_keysym_to_unicode tab keyval = Some r ->
  (latin1 keyval /\ r = keyval)
  \/ (top_byte keyval = 1 /\ r = low_24_bits keyval)
  \/ r = 0
  \/ exists e, In e tab /\ keysym e = keyval /\ ucs e = r.
Proof. apply keysym_lookup_cases. Qed.

End any_table.

Lemma keysym_lookup_is_genuine_witness :
  (latin1 0x01a2 /\ 0x02d8 = 0x01a2)
  \/ (top_byte 0x01a2 = 1 /\ 0x02d8 = low_24_bits 0x01a2)
  \/ 0x02d8 = 0
  \/ exists e, In e small_table /\ keysym e = 0x01a2 /\ ucs e = 0x02d8.
Proof.
  exact (keysym_lookup_is_genuine small_table 0x01a2 0x02d8 eq_refl).
Defined.

(** X17: a unicode value below [2^24], written as a key symbol with the
    top byte 0x01, is read back as it is, whatever the table. *)
Theorem direct_ucs_round_trip (tab : list keysym_entry) (u : Z) :
  0 <= u < 2 ^ 24 ->
  clutter_keysym_to_unicode tab (Z.lor 0x01000000 u) = Some u.
Proof.
  intros Hu.
  assert (Hlor : Z.lor 0x01000000 u = 0x01000000 + u).
  { rewrite <- Z.add_nocarry_lor; [reflexivity|].
    change 0x01000000 with (Z.shiftl 1 24).
    apply Z.bits_inj'. intros n Hn. rewrite Z.land_spec, Z.bits_0.
    destruct (Z.ltb_spec n 24).
    - now rewrite Z.shiftl_spec_low.
    - rewrite (Z.bits_above_log2 u n); [apply andb_false_r | lia |].
      destruct (Z.eq_dec u 0) as [-> | Hne]; [cbn; lia|].
      apply Z.lt_le_trans with 24; [|lia].
      apply Z.log2_lt_pow2; lia. }
  rewrite Hlor. unfold clutter_keysym_to_unicode. cbn zeta.
  destruct (_ || _) eqn:Hl.
  { apply latin1_test in Hl. unfold latin1 in Hl. lia. }
  rewrite land_top_byte, land_low_24_bits. unfold top_byte, low_24_bits.
  change 0x01000000 with (1 * 2 ^ 24).
  rewrite Z.div_add_l, Z.div_small, Z.add_0_r by lia.
  change (1 mod 2 ^ 8 * 2 ^ 24 =? 1 * 2 ^ 24) with true. cbn match.
  rewrite Z.add_comm, Z.mod_add by lia. now rewrite Z.mod_small.
Qed.

Lemma direct_ucs_round_trip_witness :
  clutter_keysym_to_unicode small_table (Z.lor 0x01000000 0x20ac) = Some 0x20ac.
Proof. apply direct_ucs_round_trip. lia. Defined.

(** ** More on the input handler *)

Lemma translate_motion_event_down dev event a :
  Z.land (AMotionEvent_getAction a) AMOTION_EVENT_ACTION_MASK
    = AMOTION_EVENT_ACTION_DOWN ->
  translate_motion_event dev event a
  = (true, press_or_release CLUTTER_BUTTON_PRESS dev a event).
Proof. intros H. unfold translate_motion_event. now rewrite H. Qed.

(** X18: the input handler reports an event as processed exactly when it
    pushes one; a pushed event belongs to the default stage and is a key
    press, key release, button press, button release or motion, never an
    event of another kind; a record that is neither a key nor a motion
    record is dropped. *)
Theorem handle_input_pushes_translated stage dev a :
  let r := clutter_android_handle_input stage dev a in
  (fst r = true <-> snd r <> None)
  /\ (forall e, snd r = Some e ->
        any_stage (any e) = stage
        /\ (type e = CLUTTER_KEY_PRESS \/ type e = CLUTTER_KEY_RELEASE
            \/ type e = CLUTTER_BUTTON_PRESS \/ type e = CLUTTER_BUTTON_RELEASE
            \/ type e = CLUTTER_MOTION))
  /\ (AInputEvent_getType a <> AINPUT_EVENT_TYPE_KEY ->
      AInputEvent_getType a <> AINPUT_EVENT_TYPE_MOTION ->
      r = (false, None)).
Proof.
  cbn zeta. unfold clutter_android_handle_input.
  destruct (Z.eqb_spec (AInputEvent_getType a) AINPUT_EVENT_TYPE_KEY) as [Hk | Hk].
  { unfold translate_key_event.
    destruct (_ =? AKEY_STATE_UP); [|destruct (_ || _)]; cbn;
      (split; [split; [discriminate || congruence | discriminate || congruence]|]);
      (split; [intros e [= <-]; cbn; auto 6 | congruence]) || (split; [discriminate | congruence]). }
  destruct (Z.eqb_spec (AInputEvent_getType a) AINPUT_EVENT_TYPE_MOTION) as [Hm | Hm].
  { unfold translate_motion_event.
    repeat (destruct (_ =? _)); cbn;
      (split; [split; [discriminate || congruence | discriminate || congruence]|]);
      (split; [intros e [= <-]; cbn; auto 6 | congruence]) || (split; [discriminate | congruence]). }
  cbn. split; [split; [discriminate | congruence]|].
  split; [discriminate | reflexivity].
Qed.

(** X19: the motion translator looks at the action through the mask only:
    two records that differ in the bits of the action above the low eight
    (the pointer index) translate alike. *)
Theorem motion_action_is_masked dev event a (action : Z) :
  Z.land action AMOTION_EVENT_ACTION_MASK
    = Z.land (AMotionEvent_getAction a) AMOTION_EVENT_ACTION_MASK ->
  translate_motion_event dev event
    {| a_type := a_type a; a_action := action; a_event_time := a_event_time a;
       a_x := a_x a; a_y := a_y a; a_meta_state := a_meta_state a;
       a_key_code := a_key_code a |}
  = translate_motion_event dev event a.
Proof.
  intros H. unfold translate_motion_event, AMotionEvent_getAction in *.
  cbn [a_action]. now rewrite H.
Qed.

Lemma motion_action_is_masked_witness :
  translate_motion_event NULL (new_input_event NULL)
    {| a_type := AINPUT_EVENT_TYPE_MOTION; a_action := 0x100;
       a_event_time := 100; a_x := inject_Z 10; a_y := inject_Z 20;
       a_meta_state := 0; a_key_code := 0 |}
  = translate_motion_event NULL (new_input_event NULL) down_at_100.
Proof.
  exact (motion_action_is_masked NULL (new_input_event NULL) down_at_100 0x100
           eq_refl).
Defined.

(** X20: a key event made by the input handler carries the record's key
    code as its unicode value and no key symbol or hardware key code (both
    are left 0), so that the unicode of the event, looked up from the key
    symbol in a table without an entry for 0, is 0. *)
Theorem key_event_has_code_but_no_symbol stage dev a e
    (tab : list keysym_entry) :
  AInputEvent_getType a = AINPUT_EVENT_TYPE_KEY ->
  snd (clutter_android_handle_input stage dev a) = Some e ->
  (forall entry, In entry tab -> keysym entry <> 0) ->
  key_unicode_value (key e) = to_guint32 (AKeyEvent_getKeyCode a)
  /\ clutter_key_event_symbol (Some (key e)) = 0
  /\ clutter_key_event_code (Some (key e)) = 0
  /\ clutter_key_event_unicode tab (Some (key e)) = Some 0.
Proof.
  intros Hty He Hnone. unfold clutter_android_handle_input in He.
  rewrite Hty in He. cbn in He. unfold translate_key_event in He.
  assert (Hkey : key e = set_key_unicode_value (to_guint32 (AKeyEvent_getKeyCode a))
                           (set_key_type (type e) (key zeroed_event))
                 /\ key_keyval (key e) = 0).
  { destruct (_ =? AKEY_STATE_UP); [|destruct (_ || _)]; cbn in He;
      try discriminate; injection He as <-; split; reflexivity. }
  destruct Hkey as [Hkey Hval].
  unfold clutter_key_event_symbol, clutter_key_event_code, clutter_key_event_unicode.
  rewrite Hval, Hkey.
  do 3 (split; [reflexivity|]).
  destruct (keysym_lookup_total tab 0) as [r Hr].
  rewrite Hr. f_equal.
  destruct (keysym_lookup_cases tab 0 r Hr)
    as [[Hl _] | [[Ht _] | [-> | (entry & Hin & Hk & _)]]].
  - unfold latin1 in Hl. lia.
  - discriminate Ht.
  - reflexivity.
  - now apply Hnone in Hin.
Qed.

Lemma key_event_has_code_but_no_symbol_witness :
  clutter_key_event_symbol
    (Some (key (snd (translate_key_event (new_input_event NULL) key_at_100)))) = 0
  /\ clutter_key_event_unicode small_table
       (Some (key (snd (translate_key_event (new_input_event NULL) key_at_100))))
     = Some 0.
Proof.
  assert (Hno : forall entry, In entry small_table -> keysym entry <> 0).
  { intros entry [<- | [<- | [<- | []]]]; discriminate. }
  pose proof (key_event_has_code_but_no_symbol NULL NULL key_at_100
                (snd (translate_key_event (new_input_event NULL) key_at_100))
                small_table eq_refl eq_refl Hno) as H.
  split; [exact (proj1 (proj2 H)) | exact (proj2 (proj2 (proj2 H)))].
Defined.

(** X21: two touches in a row are a double click: with both slots empty,
    two Down records whose times (as stored, in 32 bits) are less than the
    double-click time apart and whose places are within the click distance
    give a plain press and then a press that the click detector hands over
    as a double press. *)
Theorem double_tap_is_double_click stage dev backend a1 a2 :
  let t1 := to_guint32 (AMotionEvent_getEventTime a1) in
  let t2 := to_guint32 (AMotionEvent_getEventTime a2) in
  let x1 := gint_of_gfloat (AMotionEvent_getX a1 0) in
  let y1 := gint_of_gfloat (AMotionEvent_getY a1 0) in
  let x2 := gint_of_gfloat (AMotionEvent_getX a2 0) in
  let y2 := gint_of_gfloat (AMotionEvent_getY a2 0) in
  AInputEvent_getType a1 = AINPUT_EVENT_TYPE_MOTION ->
  AInputEvent_getType a2 = AINPUT_EVENT_TYPE_MOTION ->
  Z.land (AMotionEvent_getAction a1) AMOTION_EVENT_ACTION_MASK
    = AMOTION_EVENT_ACTION_DOWN ->
  Z.land (AMotionEvent_getAction a2) AMOTION_EVENT_ACTION_MASK
    = AMOTION_EVENT_ACTION_DOWN ->
  slot_button (slot_of backend 0) = -1 ->
  slot_button (slot_of backend 1) = -1 ->
  0 <= double_click_time backend ->
  t1 + double_click_time backend < guint32_modulus ->
  t2 < t1 + double_click_time backend ->
  Z.abs (x2 - x1) <= double_click_distance backend ->
  Z.abs (y2 - y1) <= double_click_distance backend ->
  exists e1 e2,
    clutter_android_handle_input stage dev a1 = (true, Some e1)
    /\ clutter_android_handle_input stage dev a2 = (true, Some e2)
    /\ snd (_clutter_event_button_generate backend e1) = []
    /\ snd (_clutter_event_button_generate
              (fst (_clutter_event_button_generate backend e1)) e2)
       = [set_type CLUTTER_2BUTTON_PRESS e2].
Proof.
  cbn zeta. intros Hty1 Hty2 Hd1 Hd2 H0 H1 Hdct Hsum Ht Hx Hy.
  assert (Hin : forall a,
            AInputEvent_getType a = AINPUT_EVENT_TYPE_MOTION ->
            Z.land (AMotionEvent_getAction a) AMOTION_EVENT_ACTION_MASK
              = AMOTION_EVENT_ACTION_DOWN ->
            clutter_android_handle_input stage dev a
            = (true, Some (press_or_release CLUTTER_BUTTON_PRESS dev a
                             (new_input_event stage)))).
  { intros a Hty Hd. unfold clutter_android_handle_input. rewrite Hty.
    change (AINPUT_EVENT_TYPE_MOTION =? AINPUT_EVENT_TYPE_KEY) with false.
    rewrite Z.eqb_refl. cbn match.
    now rewrite translate_motion_event_down. }
  eexists _, _. split; [apply Hin; assumption|].
  split; [apply Hin; assumption|].
  set (e1 := press_or_release CLUTTER_BUTTON_PRESS dev a1 (new_input_event stage)).
  set (e2 := press_or_release CLUTTER_BUTTON_PRESS dev a2 (new_input_event stage)).
  assert (Hord : ordinary_button (button_button (button e1))).
  { unfold ordinary_button, guint32_modulus. cbn. lia. }
  rewrite (button_generate_on_empty backend e1 H0 H1 Hord). cbn [fst snd].
  split; [reflexivity|].
  set (b1 := with_slots backend (press_of e1) empty_slot).
  rewrite button_generate_three_branch. unfold three_branch.
  rewrite (click_test_empty_slot b1 e2 1);
    [|reflexivity | unfold ordinary_button, guint32_modulus; cbn; lia].
  pose proof (to_guint32_range (AMotionEvent_getEventTime a1)) as Hr1.
  unfold is_guint32 in Hr1.
  rewrite (click_test_near b1 e2 0); [reflexivity | cbn; lia ..].
Qed.

Lemma double_tap_is_double_click_witness :
  exists e1 e2,
    clutter_android_handle_input NULL NULL down_at_100 = (true, Some e1)
    /\ clutter_android_handle_input NULL NULL second_touch = (true, Some e2)
    /\ snd (_clutter_event_button_generate fresh_backend e1) = []
    /\ snd (_clutter_event_button_generate
              (fst (_clutter_event_button_generate fresh_backend e1)) e2)
       = [set_type CLUTTER_2BUTTON_PRESS e2].
Proof.
  apply (double_tap_is_double_click NULL NULL fresh_backend
           down_at_100 second_touch);
    try reflexivity; vm_compute; discriminate.
Defined.

(** ** More on lifecycle commands *)

Lemma handle_cmd_keeps world app application cmd :
  let r := clutter_android_handle_cmd world app application cmd in
  wait_for_window (application_after r) = wait_for_window application
  /\ (have_window application = true -> have_window (application_after r) = true)
  /\ (ending r = Returned \/ ending r = Exited 0).
Proof.
  destruct cmd; cbn; auto;
    destruct (window app); cbn; auto;
    destruct (ready_initialized world); cbn; auto.
Qed.

Lemma handle_cmd_ending world app application cmd :
  ending (clutter_android_handle_cmd world app application cmd)
  = match cmd with
    | APP_CMD_TERM_WINDOW => Exited 0
    | _ => Returned
    end.
Proof. destruct cmd; cbn; try reflexivity; now destruct (window app). Qed.

(** X22: whatever the command, the handler leaves [wait_for_window] as it
    is and never clears [have_window]; it ends the process for
    [APP_CMD_TERM_WINDOW] and for no other command; and without a native
    window every other command does nothing at all. *)
Theorem handle_cmd_frame world app application cmd :
  let r := clutter_android_handle_cmd world app application cmd in
  wait_for_window (application_after r) = wait_for_window application
  /\ (have_window application = true -> have_window (application_after r) = true)
  /\ (ending r = Exited 0 <-> cmd = APP_CMD_TERM_WINDOW)
  /\ (ending r = Returned <-> cmd <> APP_CMD_TERM_WINDOW)
  /\ (window app = None -> cmd <> APP_CMD_TERM_WINDOW ->
      r = {| application_after := application; calls := []; ending := Returned |}).
Proof.
  cbn zeta.
  destruct (handle_cmd_keeps world app application cmd) as (Hw & Hh & _).
  split; [exact Hw|]. split; [exact Hh|].
  rewrite handle_cmd_ending.
  split; [|split].
  - destruct cmd; split; intros H; congruence || discriminate.
  - destruct cmd; split; intros H; congruence || discriminate.
  - intros Hnone Hcmd. destruct cmd; cbn; rewrite ?Hnone; congruence.
Qed.

(** X23: on [APP_CMD_INIT_WINDOW] with a native window the handler clears
    the fullscreen flag and emits [ready]; [have_window] is set when the
    emission reports the window as initialized; a waiter is woken whether
    or not it does. *)
Theorem init_window_wakes_waiter world app application :
  let r := clutter_android_handle_cmd world app application APP_CMD_INIT_WINDOW in
  window app <> None ->
  calls r = [ANativeActivity_setWindowFlags 0 AWINDOW_FLAG_FULLSCREEN;
             g_signal_emit_READY]
            ++ match wait_for_window application with
               | Some loop => [g_main_loop_quit loop]
               | None => []
               end
  /\ have_window (application_after r)
     = have_window application || ready_initialized world
  /\ ending r = Returned.
Proof.
  cbn. destruct (window app); [intros _ | congruence]. cbn.
  destruct (ready_initialized world); cbn;
    [|now rewrite orb_false_r]. now rewrite orb_true_r.
Qed.

Lemma init_window_wakes_waiter_witness :
  calls (clutter_android_handle_cmd
           {| ready_initialized := false;
              stage_width := inject_Z 0; stage_height := inject_Z 0 |}
           (app_with_window 300 400) waiting_application APP_CMD_INIT_WINDOW)
    = [ANativeActivity_setWindowFlags 0 AWINDOW_FLAG_FULLSCREEN;
       g_signal_emit_READY; g_main_loop_quit 1%positive].
Proof.
  apply (init_window_wakes_waiter
           {| ready_initialized := false;
              stage_width := inject_Z 0; stage_height := inject_Z 0 |}
           (app_with_window 300 400) waiting_application).
  discriminate.
Defined.

Lemma handle_cmds_keeps deliveries : forall application,
  let r := handle_cmds application deliveries in
  wait_for_window (application_after r) = wait_for_window application
  /\ (have_window application = true -> have_window (application_after r) = true).
Proof.
  induction deliveries as [|d deliveries IH]; intros application; [now split|].
  cbn zeta. cbn [handle_cmds].
  destruct (handle_cmd_keeps (d_world d) (d_app d) application (d_cmd d))
    as (Hw & Hh & _).
  destruct (ending _); [|now split].
  destruct (IH (application_after (clutter_android_handle_cmd (d_world d)
                  (d_app d) application (d_cmd d)))) as [Hw' Hh'].
  cbn. split; [congruence | auto].
Qed.

(** X24: for commands handled one after the other, the process ends exactly
    when an [APP_CMD_TERM_WINDOW] is among them, and then with status 0 and
    with no call made for any command after the first one; throughout,
    [wait_for_window] stays as it is and [have_window] is not cleared. *)
Theorem handle_cmds_until_term application before d after :
  (forall d', In d' before -> d_cmd d' <> APP_CMD_TERM_WINDOW) ->
  d_cmd d = APP_CMD_TERM_WINDOW ->
  let r := handle_cmds application (before ++ d :: after) in
  let r0 := handle_cmds application before in
  ending r0 = Returned
  /\ ending r = Exited 0
  /\ calls r = calls r0
               ++ match wait_for_window application with
                  | Some loop => [g_main_loop_quit loop]
                  | None => [clutter_main_quit]
                  end
  /\ wait_for_window (application_after r) = wait_for_window application
  /\ (have_window application = true -> have_window (application_after r) = true).
Proof.
  cbn zeta. revert application.
  induction before as [|d0 before IH]; intros application Hbefore Hd.
  - cbn [app handle_cmds]. rewrite Hd. cbn. auto.
  - cbn [app handle_cmds].
    assert (Hd0 : d_cmd d0 <> APP_CMD_TERM_WINDOW) by (apply Hbefore; now left).
    destruct (handle_cmd_keeps (d_world d0) (d_app d0) application (d_cmd d0))
      as (Hw & Hh & _).
    assert (Hret : ending (clutter_android_handle_cmd (d_world d0) (d_app d0)
                             application (d_cmd d0)) = Returned).
    { rewrite handle_cmd_ending. destruct (d_cmd d0); congruence. }
    rewrite Hret.
    destruct (IH (application_after (clutter_android_handle_cmd (d_world d0)
                    (d_app d0) application (d_cmd d0))))
      as (H1 & H2 & H3 & H4 & H5); [intros d' Hin; apply Hbefore; now right | exact Hd |].
    cbn. rewrite H3, Hw, <- app_assoc.
    split; [exact H1|]. split; [exact H2|]. split; [reflexivity|].
    split; [congruence | auto].
Qed.

Lemma handle_cmds_until_term_witness :
  ending (handle_cmds waiting_application
            [ {| d_world := stage_of 0 0; d_app := app_without_window;
                 d_cmd := APP_CMD_START |};
              {| d_world := stage_of 0 0; d_app := app_without_window;
                 d_cmd := APP_CMD_TERM_WINDOW |};
              {| d_world := stage_of 0 0; d_app := app_with_window 300 400;
                 d_cmd := APP_CMD_WINDOW_RESIZED |} ])
    = Exited 0.
Proof.
  apply (handle_cmds_until_term waiting_application
           [ {| d_world := stage_of 0 0; d_app := app_without_window;
                d_cmd := APP_CMD_START |} ]
           {| d_world := stage_of 0 0; d_app := app_without_window;
              d_cmd := APP_CMD_TERM_WINDOW |}
           [ {| d_world := stage_of 0 0; d_app := app_with_window 300 400;
                d_cmd := APP_CMD_WINDOW_RESIZED |} ]).
  - intros d' [<- | []]. discriminate.
  - reflexivity.
Defined.
